(** * ProtoRKD: src/utils/eval_PLM.py

    A shallow embedding of the evaluation script: the two wrapper
    classes with their [encode] method (length estimation, length sort,
    batching, un-sort, conversion), the model dispatch on three static
    lists and the path and table of the results file.

    Python values are an inductive type, Python exceptions are the
    [Raise] results of a small error type, and the calls of the
    underlying [encode_text] method are recorded in a call log that a
    state-and-error monad threads through [encode]. *)

From Stdlib Require Import ZArith List String Ascii Bool Lia.
From Stdlib Require Import Permutation Sorted.
Import ListNotations.
Set Warnings "-register-all".
Open Scope string_scope.
Open Scope list_scope.
Open Scope Z_scope.

(** ** Python values, exceptions and results *)

(** The exceptions the script can run into. [ModelError] stands for any
    failure of the underlying model call. *)
Inductive exn : Type :=
| StopIteration
| TypeError
| ValueError
| IndexError
| NameError
| RuntimeError
| ModelError.

Inductive result (A : Type) : Type :=
| Ok (a : A)
| Raise (e : exn).

Arguments Ok {A} a.
Arguments Raise {A} e.

(** The items [encode] receives: strings, groups of strings,
    pre-tokenized integer sequences, keyed items.  A dict is the list of
    its key/value pairs in insertion order. *)
Inductive pyval : Type :=
| PNone
| PBool (b : bool)
| PInt (z : Z)
| PStr (s : string)
| PList (items : list pyval)
| PTuple (items : list pyval)
| PDict (kvs : list (pyval * pyval)).

Definition bind_result {A B} (r : result A) (f : A -> result B) : result B :=
  match r with
  | Ok a => f a
  | Raise e => Raise e
  end.

(** A list comprehension whose element expression may raise: the first
    exception aborts the comprehension. *)
Fixpoint mapM {A B} (f : A -> result B) (l : list A) : result (list B) :=
  match l with
  | [] => Ok []
  | x :: tl =>
      bind_result (f x) (fun y =>
      bind_result (mapM f tl) (fun ys => Ok (y :: ys)))
  end.

(** ** The builtins the script uses *)
Module Py.

(** [isinstance(x, dict)] *)
Definition isinstance_dict (x : pyval) : bool :=
  match x with PDict _ => true | _ => false end.

(** [isinstance(x, int)]: [bool] is a subclass of [int]. *)
Definition isinstance_int (x : pyval) : bool :=
  match x with PInt _ | PBool _ => true | _ => false end.

(** [hasattr(x, '__len__')] *)
Definition hasattr_len (x : pyval) : bool :=
  match x with
  | PStr _ | PList _ | PTuple _ | PDict _ => true
  | PNone | PBool _ | PInt _ => false
  end.

(** [len(x)] *)
Definition len (x : pyval) : result Z :=
  match x with
  | PStr s => Ok (Z.of_nat (String.length s))
  | PList l | PTuple l => Ok (Z.of_nat (List.length l))
  | PDict kvs => Ok (Z.of_nat (List.length kvs))
  | PNone | PBool _ | PInt _ => Raise TypeError
  end.

(** The characters of a string, each a string of length one. *)
Fixpoint chars (s : string) : list pyval :=
  match s with
  | EmptyString => []
  | String c tl => PStr (String c EmptyString) :: chars tl
  end.

(** [for t in x]: the items iteration yields (the keys, for a dict). *)
Definition iter (x : pyval) : result (list pyval) :=
  match x with
  | PStr s => Ok (chars s)
  | PList l | PTuple l => Ok l
  | PDict kvs => Ok (map fst kvs)
  | PNone | PBool _ | PInt _ => Raise TypeError
  end.

(** [x[0]] on a string, list or tuple. *)
Definition getitem0 (x : pyval) : result pyval :=
  match x with
  | PStr (String c _) => Ok (PStr (String c EmptyString))
  | PList (y :: _) | PTuple (y :: _) => Ok y
  | PStr EmptyString | PList [] | PTuple [] => Raise IndexError
  | PDict _ | PNone | PBool _ | PInt _ => Raise TypeError
  end.

(** [next(iter(d.values()))] *)
Definition first_value (x : pyval) : result pyval :=
  match x with
  | PDict ((_, v) :: _) => Ok v
  | PDict [] => Raise StopIteration
  | _ => Raise TypeError
  end.

(** [sum] of a list of integers. *)
Definition sum (l : list Z) : Z := fold_left Z.add l 0.

(** [l[i]] for an index [i >= 0]. *)
Definition getitem {A} (l : list A) (i : nat) : result A :=
  match nth_error l i with
  | Some x => Ok x
  | None => Raise IndexError
  end.

(** The number of items of [range(start, stop, step)] for [step <> 0]. *)
Definition range_length (start stop step : Z) : Z :=
  if 0 <? step
  then (if start <? stop then (stop - start - 1) / step + 1 else 0)
  else (if stop <? start then (start - stop - 1) / (- step) + 1 else 0).

(** [range(start, stop, step)]: a zero step is a [ValueError]. *)
Definition range (start stop step : Z) : result (list Z) :=
  if step =? 0 then Raise ValueError
  else Ok (map (fun i => start + Z.of_nat i * step)
               (seq 0 (Z.to_nat (range_length start stop step)))).

(** The bound of a slice, as Python adjusts it: a negative bound
    counts from the end, and the result is clipped to [0, n]. *)
Definition clip (n i : Z) : Z :=
  let j := if i <? 0 then i + n else i in
  if j <? 0 then 0 else if n <? j then n else j.

(** [l[lo:hi]] *)
Definition slice {A} (l : list A) (lo hi : Z) : list A :=
  let n := Z.of_nat (List.length l) in
  let a := clip n lo in
  let b := clip n hi in
  firstn (Z.to_nat (b - a)) (skipn (Z.to_nat a) l).

End Py.

(** ** numpy and torch, as far as the script relies on them *)
Module Np.

(** The key an index selects. *)
Definition key_at (keys : list Z) (i : nat) : Z := nth i keys 0.

(** What [np.argsort(keys)] promises with its default [kind]: the
    indices [0 .. len(keys)-1], each once, in an order along which the
    keys ascend.  The default kind is not a stable sort, so nothing is
    promised about the order of equal keys. *)
Definition is_argsort (keys : list Z) (idx : list nat) : Prop :=
  Permutation idx (seq 0 (List.length keys)) /\
  StronglySorted Z.le (map (key_at keys) idx).

Definition argsort_spec (argsort : list Z -> list nat) : Prop :=
  forall keys, is_argsort keys (argsort keys).

(** Two sorting procedures that keep that promise, for use as
    instances: insertion of [(key, index)] pairs, the new pair going
    in front of the first one that [before] puts it before. *)
Fixpoint insert (before : Z -> Z -> bool) (x : Z * nat)
    (l : list (Z * nat)) : list (Z * nat) :=
  match l with
  | [] => [x]
  | y :: tl =>
      if before (fst x) (fst y) then x :: y :: tl
      else y :: insert before x tl
  end.

Definition argsort_by (before : Z -> Z -> bool) (keys : list Z) : list nat :=
  map snd (fold_right (insert before) []
             (combine keys (seq 0 (List.length keys)))).

(** Equal keys keep their input order. *)
Definition stable_argsort : list Z -> list nat := argsort_by Z.leb.

(** Equal keys come out in reverse input order. *)
Definition reversing_argsort : list Z -> list nat := argsort_by Z.ltb.

End Np.

(** What [encode] returns, by the conversion it applied: a stacked
    tensor, a numpy array, or the plain list of row tensors. *)
Inductive embeddings (Emb : Type) : Type :=
| Tensor (rows : list Emb)
| NdArray (rows : list Emb)
| TensorList (rows : list Emb).

Arguments Tensor {Emb} rows.
Arguments NdArray {Emb} rows.
Arguments TensorList {Emb} rows.

Definition rows_of {Emb} (e : embeddings Emb) : list Emb :=
  match e with Tensor r | NdArray r | TensorList r => r end.

Module Torch.

(** [torch.stack(tensors)]: an empty list is a [RuntimeError] ("stack
    expects a non-empty TensorList").  The rows all come from one
    model and have one shape. *)
Definition stack {Emb} (tensors : list Emb) : result (embeddings Emb) :=
  match tensors with
  | [] => Raise RuntimeError
  | _ :: _ => Ok (Tensor tensors)
  end.

End Torch.

(** ** The names bound at module level

    The imports of lines 1-13 and the definitions of the module.
    Reading any other global name is a [NameError]. *)
Definition module_globals : list string :=
  [ "torch"; "nn"; "np"; "pd"; "logging"; "sys";
    "nlp_eval"; "parse_args"; "open_clip";
    "AutoConfig"; "AutoTokenizer"; "AutoModel"; "SentenceTransformer";
    "WrappedHuggingfaceTransformer"; "mean_pooling";
    "WrappedOpenCLIPTransformer" ].

Definition lookup_global (name : string) : result unit :=
  if existsb (String.eqb name) module_globals then Ok tt
  else Raise NameError.

(** Truth value of the [show_progress_bar] argument ([None], [True] or
    [False]). *)
Definition truthy (flag : option bool) : bool :=
  match flag with Some b => b | None => false end.

(** ** State and errors

    A call of [encode_text] is logged with its batch and the value of
    its [projection] keyword.  The log survives an exception: the calls
    made before it did happen. *)
Definition call : Type := list pyval * bool.

Definition M (A : Type) : Type := list call -> result A * list call.

Definition ret {A} (a : A) : M A := fun log => (Ok a, log).

Definition bind {A B} (m : M A) (f : A -> M B) : M B :=
  fun log =>
    match m log with
    | (Ok a, log') => f a log'
    | (Raise e, log') => (Raise e, log')
    end.

Definition lift {A} (r : result A) : M A := fun log => (r, log).

Notation "x <- m ;; k" := (bind m (fun x => k))
  (at level 61, m at next level, right associativity).

(** [for x in l: acc = body(acc, x)] *)
Fixpoint for_each {A B} (l : list A) (acc : B) (body : B -> A -> M B) : M B :=
  match l with
  | [] => ret acc
  | x :: tl => acc' <- body acc x ;; for_each tl acc' body
  end.

Definition invoke {Emb} (encode_text : list pyval -> bool -> result (list Emb))
    (texts : list pyval) (projection : bool) : M (list Emb) :=
  fun log => (encode_text texts projection, log ++ [(texts, projection)]).

(** The conversion at the end of [encode] (lines 51-54 and 119-122), as
    one function of the two flags. *)
Definition convert {Emb} (convert_to_tensor convert_to_numpy : bool)
    (all_embeddings : list Emb) : result (embeddings Emb) :=
  if convert_to_tensor then Torch.stack all_embeddings
  else if convert_to_numpy then Ok (NdArray all_embeddings)
  else Ok (TensorList all_embeddings).

(** ** class WrappedHuggingfaceTransformer *)
Module WrappedHuggingfaceTransformer.

(** Lines 31-39. *)
Definition _text_length (text : pyval) : result Z :=
  if Py.isinstance_dict text then
    bind_result (Py.first_value text) Py.len
  else if negb (Py.hasattr_len text) then
    Ok 1
  else
    bind_result (Py.len text) (fun n =>
    if n =? 0 then Py.len text
    else
      bind_result (Py.getitem0 text) (fun x0 =>
      if Py.isinstance_int x0 then Py.len text
      else
        bind_result (Py.iter text) (fun ts =>
        bind_result (mapM Py.len ts) (fun ns => Ok (Py.sum ns))))).

Section Encode.
Context {Emb : Type}.
(** [np.argsort] and the method [self.encode_text] with its
    [projection] keyword. *)
Variable argsort : list Z -> list nat.
Variable encode_text : list pyval -> bool -> result (list Emb).

(** Lines 29-55.  [show_progress_bar] is a parameter the body never
    reads. *)
Definition encode (sentences : list pyval) (batch_size : Z)
    (show_progress_bar : option bool)
    (convert_to_numpy convert_to_tensor : bool) : M (embeddings Emb) :=
  let all_embeddings := @nil Emb in
  lens <- lift (mapM _text_length sentences) ;;
  let length_sorted_idx := argsort lens in
  sentences_sorted <- lift (mapM (Py.getitem sentences) length_sorted_idx) ;;
  starts <- lift (Py.range 0 (Z.of_nat (List.length sentences)) batch_size) ;;
  all_embeddings <-
    for_each starts all_embeddings (fun all_embeddings start_index =>
      let sentences_batch :=
        Py.slice sentences_sorted start_index (start_index + batch_size) in
      embeddings <- invoke encode_text sentences_batch false ;;
      ret (all_embeddings ++ embeddings)) ;;
  all_embeddings <-
    lift (mapM (Py.getitem all_embeddings)
               (argsort (map Z.of_nat length_sorted_idx))) ;;
  if convert_to_tensor then
    lift (Torch.stack all_embeddings)
  else if convert_to_numpy then
    ret (NdArray all_embeddings)
  else
    ret (TensorList all_embeddings).

(** [encode(sentences)] with the defaults of the signature. *)
Definition encode_default (sentences : list pyval) : M (embeddings Emb) :=
  encode sentences 32 None true true.

End Encode.

End WrappedHuggingfaceTransformer.

(** ** class WrappedOpenCLIPTransformer *)
Module WrappedOpenCLIPTransformer.

(** Lines 98-106. *)
Definition _text_length (text : pyval) : result Z :=
  if Py.isinstance_dict text then
    bind_result (Py.first_value text) Py.len
  else if negb (Py.hasattr_len text) then
    Ok 1
  else
    bind_result (Py.len text) (fun n =>
    if n =? 0 then Py.len text
    else
      bind_result (Py.getitem0 text) (fun x0 =>
      if Py.isinstance_int x0 then Py.len text
      else
        bind_result (Py.iter text) (fun ts =>
        bind_result (mapM Py.len ts) (fun ns => Ok (Py.sum ns))))).

Section Encode.
Context {Emb : Type}.
Variable argsort : list Z -> list nat.
Variable encode_text : list pyval -> bool -> result (list Emb).

(** Lines 96-123.  With a true [show_progress_bar] the iterator is
    [tqdm.tqdm(range(...))]: the name [tqdm] is read first, then the
    range is built and wrapped; the wrapper yields the same
    indices. *)
Definition encode (sentences : list pyval) (batch_size : Z)
    (show_progress_bar : option bool)
    (convert_to_numpy convert_to_tensor : bool) : M (embeddings Emb) :=
  let all_embeddings := @nil Emb in
  lens <- lift (mapM _text_length sentences) ;;
  let length_sorted_idx := argsort lens in
  sentences_sorted <- lift (mapM (Py.getitem sentences) length_sorted_idx) ;;
  iterator <-
    (if truthy show_progress_bar
     then _ <- lift (lookup_global "tqdm") ;;
          lift (Py.range 0 (Z.of_nat (List.length sentences)) batch_size)
     else lift (Py.range 0 (Z.of_nat (List.length sentences)) batch_size)) ;;
  all_embeddings <-
    for_each iterator all_embeddings (fun all_embeddings start_index =>
      let sentences_batch :=
        Py.slice sentences_sorted start_index (start_index + batch_size) in
      embeddings <- invoke encode_text sentences_batch true ;;
      ret (all_embeddings ++ embeddings)) ;;
  all_embeddings <-
    lift (mapM (Py.getitem all_embeddings)
               (argsort (map Z.of_nat length_sorted_idx))) ;;
  if convert_to_tensor then
    lift (Torch.stack all_embeddings)
  else if convert_to_numpy then
    ret (NdArray all_embeddings)
  else
    ret (TensorList all_embeddings).

Definition encode_default (sentences : list pyval) : M (embeddings Emb) :=
  encode sentences 32 None true true.

End Encode.

End WrappedOpenCLIPTransformer.

(** ** The main script: dispatch (lines 163-215) *)

Definition huggingface_transformers : list string :=
  [ "bert-base-uncased";
    "bert-base-cased";
    "bert-large-uncased";
    "bert-large-cased";
    "roberta-base";
    "roberta-large";
    "roberta-large-mnli";
    "facebook/muppet-roberta-large";
    "facebook/contriever";
    "facebook/contriever-msmarco";
    "Jean-Baptiste/roberta-large-ner-english";
    "princeton-nlp/unsup-simcse-roberta-large";
    "princeton-nlp/sup-simcse-roberta-large";
    "xlm-roberta-large";
    "xlm-roberta-large-finetuned-conll03-english";
    "deepset/xlm-roberta-large-squad2";
    "joeddav/xlm-roberta-large-xnli";
    "sentence-transformers/distiluse-base-multilingual-cased-v2";
    "sentence-transformers/paraphrase-distilroberta-base-v2";
    "sentence-transformers/paraphrase-MiniLM-L6-v2";
    "sentence-transformers/msmarco-distilbert-base-tas-b";
    "sentence-transformers/all-MiniLM-L12-v1";
    "sentence-transformers/all-mpnet-base-v2";
    "sentence-transformers/all-roberta-large-v1" ].

Definition sentence_transformers : list string :=
  [ "average_word_embeddings_glove.6B.300d";
    "average_word_embeddings_komninos" ].

Definition open_clip_transformers : list string :=
  [ "RN50";
    "RN101";
    "RN50x4";
    "RN50x16";
    "ViT-B-32";
    "ViT-B-16";
    "ViT-L-14";
    "ViT-L-14-336" ].

(** [x in l] on a list of strings. *)
Definition str_in (x : string) (l : list string) : bool :=
  existsb (String.eqb x) l.

(** The adapter the script builds, with the name it was built from. *)
Inductive adapter : Type :=
| WrappedHuggingfaceTransformer_ (model_name : string)
| SentenceTransformer_ (model_name : string)
| WrappedOpenCLIPTransformer_ (model_name : string).

(** Lines 208-215.  [raise 'wtf?'] raises a [TypeError]: a string is not
    an exception. *)
Definition dispatch (model_name : string) : result adapter :=
  if str_in model_name huggingface_transformers then
    Ok (WrappedHuggingfaceTransformer_ model_name)
  else if str_in model_name sentence_transformers then
    Ok (SentenceTransformer_ model_name)
  else if str_in model_name open_clip_transformers then
    Ok (WrappedOpenCLIPTransformer_ model_name)
  else
    Raise TypeError.

(** ** The main script: the results file (lines 218-225) *)

(** [s.replace(old, new)] for one-character [old] and [new]. *)
Fixpoint replace (old new : ascii) (s : string) : string :=
  match s with
  | EmptyString => EmptyString
  | String c tl =>
      String (if Ascii.eqb c old then new else c) (replace old new tl)
  end.

Definition tab : ascii := ascii_of_nat 9.

Section Results.
(** The numeric score of a metric. *)
Variable Score : Type.

(** A cell of the table: a score, or the model name. *)
Inductive cell : Type :=
| Num (v : Score)
| Str (s : string).

(** A dict with string keys, in insertion order. *)
Definition dict : Type := list (string * cell).

(** [d[k] = v]: an existing key keeps its place, a new one goes last. *)
Fixpoint setitem (d : dict) (k : string) (v : cell) : dict :=
  match d with
  | [] => [(k, v)]
  | (k', v') :: tl =>
      if String.eqb k' k then (k, v) :: tl
      else (k', v') :: setitem tl k v
  end.

Fixpoint lookup (d : dict) (k : string) : option cell :=
  match d with
  | [] => None
  | (k', v') :: tl => if String.eqb k' k then Some v' else lookup tl k
  end.

Record DataFrame : Type := {
  columns : list string;
  index : list Z;
  data : list (list cell)
}.

(** [pd.DataFrame(d, index=idx)] for a dict of scalars: one row per
    index label, every row the dict's values. *)
Definition DataFrame_of (d : dict) (idx : list Z) : DataFrame :=
  {| columns := map fst d;
     index := idx;
     data := map (fun _ => map snd d) idx |}.

(** What [to_csv] is asked to write. *)
Record csv_file : Type := {
  path : string;
  sep : ascii;
  header : list string;
  lines : list (list cell)
}.

(** [df.to_csv(path, sep=sep, index=None)]: no index column. *)
Definition to_csv (df : DataFrame) (p : string) (s : ascii) : csv_file :=
  {| path := p; sep := s; header := columns df; lines := data df |}.

(** Lines 219-225, given the mapping [nlp_eval] returned. *)
Definition write_results (model_name : string) (results : dict) : csv_file :=
  let results := setitem results "model" (Str model_name) in
  let results := DataFrame_of results [0] in
  to_csv results
    ("PLM_evaluations/sts-" ++ replace "/" "-" model_name ++ ".csv")%string
    tab.

End Results.

Arguments Num {Score} v.
Arguments Str {Score} s.
Arguments setitem {Score} d k v.
Arguments lookup {Score} d k.
Arguments columns {Score} d.
Arguments index {Score} d.
Arguments data {Score} d.
Arguments DataFrame_of {Score} d idx.
Arguments path {Score} c.
Arguments sep {Score} c.
Arguments header {Score} c.
Arguments lines {Score} c.
Arguments to_csv {Score} df p s.
Arguments write_results {Score} model_name results.

(** ** The three stages of [encode]

    Both [encode] methods run a preparation that touches no model, the
    batch loop, and a final un-sort and conversion.  The stages are
    stated once, over the [projection] value passed to [encode_text] and
    over whether the progress bar was asked for; [encode_stages_hf] and
    [encode_stages_clip] below show that each method is exactly their
    composition. *)
Section Stages.
Context {Emb : Type}.
Variable argsort : list Z -> list nat.
Variable encode_text : list pyval -> bool -> result (list Emb).

(** The index permutation, the sorted sentences and the start indices
    of the loop. *)
Definition prepare (progress : bool) (sentences : list pyval)
    (batch_size : Z) : result (list nat * list pyval * list Z) :=
  bind_result (mapM WrappedHuggingfaceTransformer._text_length sentences)
    (fun lens =>
  let length_sorted_idx := argsort lens in
  bind_result (mapM (Py.getitem sentences) length_sorted_idx)
    (fun sentences_sorted =>
  bind_result
    (if progress
     then bind_result (lookup_global "tqdm") (fun _ =>
            Py.range 0 (Z.of_nat (List.length sentences)) batch_size)
     else Py.range 0 (Z.of_nat (List.length sentences)) batch_size)
    (fun starts => Ok (length_sorted_idx, sentences_sorted, starts)))).

Definition batch_at (sentences_sorted : list pyval) (batch_size : Z)
    (start_index : Z) : list pyval :=
  Py.slice sentences_sorted start_index (start_index + batch_size).

Definition batch_loop (projection : bool) (sentences_sorted : list pyval)
    (batch_size : Z) (starts : list Z) (acc : list Emb) : M (list Emb) :=
  for_each starts acc (fun all_embeddings start_index =>
    embeddings <-
      invoke encode_text (batch_at sentences_sorted batch_size start_index)
             projection ;;
    ret (all_embeddings ++ embeddings)).

Definition unsort (length_sorted_idx : list nat)
    (all_embeddings : list Emb) : result (list Emb) :=
  mapM (Py.getitem all_embeddings)
       (argsort (map Z.of_nat length_sorted_idx)).

Definition staged (projection progress : bool) (sentences : list pyval)
    (batch_size : Z) (convert_to_numpy convert_to_tensor : bool)
    : M (embeddings Emb) :=
  fun log =>
    match prepare progress sentences batch_size with
    | Raise e => (Raise e, log)
    | Ok (length_sorted_idx, sentences_sorted, starts) =>
        match batch_loop projection sentences_sorted batch_size starts [] log with
        | (Raise e, log') => (Raise e, log')
        | (Ok all_embeddings, log') =>
            (bind_result (unsort length_sorted_idx all_embeddings)
               (convert convert_to_tensor convert_to_numpy), log')
        end
    end.

End Stages.

(** Every logged call with its [projection] value replaced. *)
Definition retag (projection : bool) (log : list call) : list call :=
  map (fun c => (fst c, projection)) log.

(** A stand-in for a model: one row per text, the row of a text being
    its estimated length (or -1) shifted by the [projection] flag. *)
Definition toy_row (projection : bool) (text : pyval) : Z :=
  match WrappedHuggingfaceTransformer._text_length text with
  | Ok n => if projection then n + 1000 else n
  | Raise _ => -1
  end.

Definition toy_encode_text (texts : list pyval) (projection : bool)
    : result (list Z) :=
  Ok (map (toy_row projection) texts).

(** ** What "in input order" means

    [restores_order] reads an outcome of [encode] against its input:
    [sorted] is the sentence list in the order of the index permutation
    [argsort keys], the slices at [starts] are the batches and cut
    [sorted] into consecutive pieces, [rowss] are the rows [encode_text]
    returned batch by batch, and [out] is the list that was converted:
    the rows of the value returned, for a non-empty input or with
    [convert_to_tensor] off.  The row computed at sorted position [k],
    where input sentence [i] stands, is the row at output position
    [i]. *)
Definition restores_order {Emb} (argsort : list Z -> list nat)
    (encode_text : list pyval -> bool -> result (list Emb))
    (projection : bool) (sentences : list pyval) (keys : list Z)
    (batch_size : Z) (convert_to_numpy convert_to_tensor : bool)
    (outcome : result (embeddings Emb)) : Prop :=
  exists (sorted : list pyval) (starts : list Z) (rowss : list (list Emb))
         (out : list Emb),
    mapM (Py.getitem sentences) (argsort keys) = Ok sorted /\
    Py.range 0 (Z.of_nat (List.length sentences)) batch_size = Ok starts /\
    List.concat
      (map (fun start => Py.slice sorted start (start + batch_size)) starts)
    = sorted /\
    Forall2 (fun start rows =>
               encode_text (Py.slice sorted start (start + batch_size))
                           projection = Ok rows) starts rowss /\
    List.length (List.concat rowss) = List.length sentences /\
    outcome = convert convert_to_tensor convert_to_numpy out /\
    (sentences <> [] \/ convert_to_tensor = false ->
     exists e, outcome = Ok e /\ rows_of e = out) /\
    List.length out = List.length sentences /\
    forall k i, nth_error (argsort keys) k = Some i ->
      nth_error sorted k = nth_error sentences i /\
      nth_error out i = nth_error (List.concat rowss) k.

(** ** Checks on lists of names *)

(** No string occurs twice in the list. *)
Fixpoint distinct_names (l : list string) : bool :=
  match l with
  | [] => true
  | x :: tl => negb (str_in x tl) && distinct_names tl
  end.

(** Every name the dispatch knows. *)
Definition known_models : list string :=
  huggingface_transformers ++ sentence_transformers ++ open_clip_transformers.

(** ** The default sort of [np.argsort]

    [np.argsort] is called without [kind], so numpy sorts the index
    array with its quicksort: [aquicksort_] of npysort/quicksort.cpp, an
    introsort that partitions around a median of three while a segment
    spans more than [SMALL_QUICKSORT] places and finishes each segment
    by insertion.  The index array starts as [0 .. n-1]; [v] are the
    keys, [tosort] the index array, and [pl], [pr], [pi], [pj], [pm],
    [pk] positions in it, as in the C source.  Builds of numpy that
    hand integer keys to a vectorised sort instead, and the heapsort
    the introsort falls back on when its depth limit is used up, are
    not part of this model. *)
Module NpQuicksort.

Definition SMALL_QUICKSORT : nat := 16.

Section Keys.
Variable v : list Z.

(** [*p] *)
Definition deref (tosort : list nat) (p : nat) : nat := nth p tosort 0%nat.

(** [v[*p]] *)
Definition val (tosort : list nat) (p : nat) : Z := nth (deref tosort p) v 0.

(** [*p = x] *)
Fixpoint store (tosort : list nat) (p x : nat) : list nat :=
  match tosort, p with
  | [], _ => []
  | _ :: tl, O => x :: tl
  | y :: tl, S p' => y :: store tl p' x
  end.

Definition INTP_SWAP (tosort : list nat) (p q : nat) : list nat :=
  store (store tosort p (deref tosort q)) q (deref tosort p).

(** [do { ++pi; } while (v[*pi] < vp);] *)
Fixpoint scan_up (fuel : nat) (tosort : list nat) (pi : nat) (vp : Z)
    : option nat :=
  match fuel with
  | O => None
  | S fuel' =>
      let pi := S pi in
      if val tosort pi <? vp then scan_up fuel' tosort pi vp else Some pi
  end.

(** [do { --pj; } while (vp < v[*pj]);] *)
Fixpoint scan_down (fuel : nat) (tosort : list nat) (pj : nat) (vp : Z)
    : option nat :=
  match fuel with
  | O => None
  | S fuel' =>
      let pj := Nat.pred pj in
      if vp <? val tosort pj then scan_down fuel' tosort pj vp else Some pj
  end.

(** The [for (;;)] loop of the partition: scan, stop when the
    positions have met, swap otherwise. *)
Fixpoint exchange (fuel : nat) (tosort : list nat) (pi pj : nat) (vp : Z)
    : option (list nat * nat) :=
  match fuel with
  | O => None
  | S fuel' =>
      match scan_up fuel tosort pi vp with
      | None => None
      | Some pi =>
          match scan_down fuel tosort pj vp with
          | None => None
          | Some pj =>
              if (pj <=? pi)%nat then Some (tosort, pi)
              else exchange fuel' (INTP_SWAP tosort pi pj) pi pj vp
          end
      end
  end.

(** A segment waiting on the stack, with the depth saved for it. *)
Definition segment : Type := (nat * nat * Z)%type.

(** [while ((pr - pl) > SMALL_QUICKSORT) { ... }]: median of three,
    partition, push the larger part and go on with the smaller one. *)
Fixpoint partitions (fuel : nat) (tosort : list nat) (pl pr : nat)
    (stack : list segment) (cdepth : Z)
    : option (list nat * nat * nat * list segment * Z) :=
  match fuel with
  | O => None
  | S fuel' =>
      if (SMALL_QUICKSORT <? pr - pl)%nat then
        let pm := (pl + Nat.shiftr (pr - pl) 1)%nat in
        let tosort :=
          if val tosort pm <? val tosort pl then INTP_SWAP tosort pm pl
          else tosort in
        let tosort :=
          if val tosort pr <? val tosort pm then INTP_SWAP tosort pr pm
          else tosort in
        let tosort :=
          if val tosort pm <? val tosort pl then INTP_SWAP tosort pm pl
          else tosort in
        let vp := val tosort pm in
        let pi := pl in
        let pj := (pr - 1)%nat in
        let tosort := INTP_SWAP tosort pm pj in
        match exchange fuel tosort pi pj vp with
        | None => None
        | Some (tosort, pi) =>
            let pk := (pr - 1)%nat in
            let tosort := INTP_SWAP tosort pi pk in
            let cdepth := cdepth - 1 in
            if (pi - pl <? pr - pi)%nat then
              partitions fuel' tosort pl (pi - 1)%nat
                ((S pi, pr, cdepth) :: stack) cdepth
            else
              partitions fuel' tosort (S pi) pr
                ((pl, (pi - 1)%nat, cdepth) :: stack) cdepth
        end
      else Some (tosort, pl, pr, stack, cdepth)
  end.

(** [while (pj > pl && vp < v[*pk]) { *pj-- = *pk--; }] *)
Fixpoint shift (tosort : list nat) (pl pj : nat) (vp : Z) : list nat * nat :=
  match pj with
  | O => (tosort, pj)
  | S pk =>
      if (pl <? pj)%nat && (vp <? val tosort pk)
      then shift (store tosort pj (deref tosort pk)) pl pk vp
      else (tosort, pj)
  end.

(** [for (pi = pl + 1; pi <= pr; ++pi) { ... }] *)
Definition insertion_sort (tosort : list nat) (pl pr : nat) : list nat :=
  fold_left
    (fun tosort pi =>
       let vi := deref tosort pi in
       let vp := nth vi v 0 in
       let '(tosort, pj) := shift tosort pl pi vp in
       store tosort pj vi)
    (seq (S pl) (pr - pl)) tosort.

(** [while (1) { ... }]: partition down to a small segment, sort it by
    insertion, pop the next segment.  [None] where the source would
    switch to heapsort. *)
Fixpoint sort_loop (fuel : nat) (tosort : list nat) (pl pr : nat)
    (stack : list segment) (cdepth : Z) : option (list nat) :=
  match fuel with
  | O => None
  | S fuel' =>
      if cdepth <? 0 then None
      else
        match partitions fuel tosort pl pr stack cdepth with
        | None => None
        | Some (tosort, pl, pr, stack, _) =>
            let tosort := insertion_sort tosort pl pr in
            match stack with
            | [] => Some tosort
            | (pl, pr, cdepth) :: stack =>
                sort_loop fuel' tosort pl pr stack cdepth
            end
        end
  end.

End Keys.

(** [aquicksort_(v, tosort, num)], the depth limit being twice the
    position of the highest bit of [num]. *)
Definition aquicksort (v : list Z) (tosort : list nat) (num : nat)
    : option (list nat) :=
  sort_loop v (S num) tosort 0 (num - 1) [] (2 * Z.log2 (Z.of_nat num)).

(** [np.argsort(keys)] on a list of integers. *)
Definition argsort (keys : list Z) : option (list nat) :=
  aquicksort keys (seq 0 (List.length keys)) (List.length keys).

(** The same as a function into index lists, for [encode]; the indices
    in their given order where the model has no answer. *)
Definition argsort_or_identity (keys : list Z) : list nat :=
  match argsort keys with
  | Some idx => idx
  | None => seq 0 (List.length keys)
  end.

End NpQuicksort.

(** Eighteen one-letter sentences, all of estimated length 1. *)
Definition eighteen_letters : list pyval :=
  map PStr ["a"; "b"; "c"; "d"; "e"; "f"; "g"; "h"; "i"; "j"; "k"; "l";
            "m"; "n"; "o"; "p"; "q"; "r"].


(** * Properties *)

(** ** Results and comprehensions *)

Lemma mapM_ok_iff {A B} (f : A -> result B) (l : list A) (l' : list B) :
  mapM f l = Ok l' <-> Forall2 (fun a b => f a = Ok b) l l'.
Proof.
  revert l'; induction l as [|x tl IH]; intros l'; simpl.
  - split; intros H.
    + injection H as <-. constructor.
    + inversion H. reflexivity.
  - split; intros H.
    + destruct (f x) as [y|e] eqn:Hx; simpl in H; [|discriminate].
      destruct (mapM f tl) as [ys|e] eqn:Htl; simpl in H; [|discriminate].
      injection H as <-. constructor; [assumption|]. now apply IH.
    + inversion H as [|a b la lb Hab Hrest]; subst.
      rewrite Hab; simpl. apply IH in Hrest. rewrite Hrest. reflexivity.
Qed.

Lemma mapM_total {A B} (f : A -> result B) (g : A -> B) (l : list A) :
  (forall a, In a l -> f a = Ok (g a)) -> mapM f l = Ok (map g l).
Proof.
  induction l as [|x tl IH]; intros H; simpl; [reflexivity|].
  rewrite (H x (or_introl eq_refl)); simpl.
  rewrite IH by (intros a Ha; apply H; now right). reflexivity.
Qed.

Lemma mapM_length {A B} (f : A -> result B) (l : list A) (l' : list B) :
  mapM f l = Ok l' -> List.length l' = List.length l.
Proof.
  intros H. apply mapM_ok_iff in H.
  induction H; simpl; congruence.
Qed.

(** ** The length estimate *)

Lemma sum_shift (l : list Z) (a : Z) :
  fold_left Z.add l a = a + fold_left Z.add l 0.
Proof.
  revert a; induction l as [|x tl IH]; intros a; simpl; [lia|].
  rewrite (IH (a + x)), (IH x). lia.
Qed.

Lemma sum_cons (x : Z) (l : list Z) : Py.sum (x :: l) = x + Py.sum l.
Proof. unfold Py.sum; simpl. now rewrite sum_shift. Qed.

Lemma len_chars (s : string) :
  mapM Py.len (Py.chars s) = Ok (repeat 1 (String.length s)).
Proof.
  induction s as [|c tl IH]; simpl; [reflexivity|].
  rewrite IH. reflexivity.
Qed.

Lemma sum_ones (n : nat) : Py.sum (repeat 1 n) = Z.of_nat n.
Proof.
  induction n as [|n IH]; [reflexivity|].
  change (repeat 1 (S n)) with (1 :: repeat 1 n).
  rewrite sum_cons, IH. lia.
Qed.

Lemma text_length_str (s : string) :
  WrappedHuggingfaceTransformer._text_length (PStr s)
  = Ok (Z.of_nat (String.length s)).
Proof.
  destruct s as [|c tl]; [reflexivity|].
  unfold WrappedHuggingfaceTransformer._text_length.
  cbn [Py.isinstance_dict Py.hasattr_len negb Py.len bind_result Py.getitem0
       Py.isinstance_int Py.iter].
  replace (Z.of_nat (String.length (String c tl)) =? 0) with false
    by (symmetry; apply Z.eqb_neq; simpl; lia).
  rewrite len_chars. cbn [bind_result]. now rewrite sum_ones.
Qed.

(** The two wrappers estimate lengths alike. *)
Lemma text_length_same (text : pyval) :
  WrappedOpenCLIPTransformer._text_length text
  = WrappedHuggingfaceTransformer._text_length text.
Proof. reflexivity. Qed.

(** C2: the estimated length is the length of the first value for a
    mapping, 1 for an item without [__len__], the item's own length for
    an empty sequence or one whose first element is an integer, and
    otherwise the sum of the lengths of the constituents: the length of
    a string, the summed lengths of a group of strings.  A 3-character
    string gives 3, five integers give 5, an item without [__len__]
    gives 1. *)
Theorem text_length_cases :
  (forall k v rest,
      WrappedHuggingfaceTransformer._text_length (PDict ((k, v) :: rest))
      = Py.len v) /\
  (forall x, Py.hasattr_len x = false ->
      WrappedHuggingfaceTransformer._text_length x = Ok 1) /\
  (forall x, Py.isinstance_dict x = false ->
      Py.len x = Ok 0 \/
      (exists x0, Py.getitem0 x = Ok x0 /\ Py.isinstance_int x0 = true) ->
      WrappedHuggingfaceTransformer._text_length x = Py.len x) /\
  (forall x n x0 ts ns,
      Py.isinstance_dict x = false ->
      Py.len x = Ok n -> n <> 0 ->
      Py.getitem0 x = Ok x0 -> Py.isinstance_int x0 = false ->
      Py.iter x = Ok ts -> mapM Py.len ts = Ok ns ->
      WrappedHuggingfaceTransformer._text_length x = Ok (Py.sum ns)) /\
  (forall s,
      WrappedHuggingfaceTransformer._text_length (PStr s)
      = Ok (Z.of_nat (String.length s))) /\
  (forall s ss,
      WrappedHuggingfaceTransformer._text_length (PList (map PStr (s :: ss)))
      = Ok (Py.sum (map (fun t => Z.of_nat (String.length t)) (s :: ss)))) /\
  (forall s ss,
      WrappedHuggingfaceTransformer._text_length (PTuple (map PStr (s :: ss)))
      = Ok (Py.sum (map (fun t => Z.of_nat (String.length t)) (s :: ss)))) /\
  WrappedHuggingfaceTransformer._text_length (PStr "abc") = Ok 3 /\
  WrappedHuggingfaceTransformer._text_length
    (PList [PInt 101; PInt 7; PInt 8; PInt 9; PInt 102]) = Ok 5 /\
  WrappedHuggingfaceTransformer._text_length (PInt 7) = Ok 1 /\
  WrappedHuggingfaceTransformer._text_length PNone = Ok 1.
Proof.
  repeat split.
  - intros x Hlen. destruct x; simpl in Hlen; try discriminate; reflexivity.
  - intros x Hdict [Hzero | (x0 & Hx0 & Hint)].
    + unfold WrappedHuggingfaceTransformer._text_length.
      rewrite Hdict.
      destruct (Py.hasattr_len x) eqn:Hl; simpl.
      * rewrite Hzero. reflexivity.
      * destruct x; simpl in *; discriminate.
    + unfold WrappedHuggingfaceTransformer._text_length.
      rewrite Hdict.
      destruct (Py.hasattr_len x) eqn:Hl; simpl.
      * destruct (Py.len x) as [n|e] eqn:Hn; simpl; [|reflexivity].
        destruct (n =? 0); [reflexivity|].
        rewrite Hx0; simpl. rewrite Hint. reflexivity.
      * destruct x; simpl in *; discriminate.
  - intros x n x0 ts ns Hdict Hn Hnz Hx0 Hint Hts Hns.
    unfold WrappedHuggingfaceTransformer._text_length.
    rewrite Hdict.
    destruct (Py.hasattr_len x) eqn:Hl; simpl.
    + rewrite Hn; simpl.
      apply Z.eqb_neq in Hnz; rewrite Hnz.
      rewrite Hx0; simpl. rewrite Hint, Hts; simpl. rewrite Hns. reflexivity.
    + destruct x; simpl in *; discriminate.
  - apply text_length_str.
  - intros s ss.
    unfold WrappedHuggingfaceTransformer._text_length.
    cbn [Py.isinstance_dict Py.hasattr_len negb Py.len bind_result map
         Py.getitem0 Py.isinstance_int Py.iter].
    replace (Z.of_nat (List.length (PStr s :: map PStr ss)) =? 0) with false
      by (symmetry; apply Z.eqb_neq; simpl; lia).
    change (PStr s :: map PStr ss) with (map PStr (s :: ss)).
    rewrite (mapM_total Py.len
               (fun x => match x with
                         | PStr t => Z.of_nat (String.length t)
                         | _ => 0 end)).
    + cbn [bind_result]. rewrite map_map. reflexivity.
    + intros a Ha. apply in_map_iff in Ha as (t & <- & _). reflexivity.
  - intros s ss.
    unfold WrappedHuggingfaceTransformer._text_length.
    cbn [Py.isinstance_dict Py.hasattr_len negb Py.len bind_result map
         Py.getitem0 Py.isinstance_int Py.iter].
    replace (Z.of_nat (List.length (PStr s :: map PStr ss)) =? 0) with false
      by (symmetry; apply Z.eqb_neq; simpl; lia).
    change (PStr s :: map PStr ss) with (map PStr (s :: ss)).
    rewrite (mapM_total Py.len
               (fun x => match x with
                         | PStr t => Z.of_nat (String.length t)
                         | _ => 0 end)).
    + cbn [bind_result]. rewrite map_map. reflexivity.
    + intros a Ha. apply in_map_iff in Ha as (t & <- & _). reflexivity.
Qed.

(** ** The stages compose to the methods *)

Lemma encode_stages_hf {Emb} argsort (encode_text : list pyval -> bool -> result (list Emb))
    sentences batch_size show_progress_bar convert_to_numpy convert_to_tensor log :
  WrappedHuggingfaceTransformer.encode argsort encode_text sentences batch_size
    show_progress_bar convert_to_numpy convert_to_tensor log
  = staged argsort encode_text false false sentences batch_size
      convert_to_numpy convert_to_tensor log.
Proof.
  unfold WrappedHuggingfaceTransformer.encode, staged, prepare, unsort,
    batch_loop, batch_at, bind, lift.
  destruct (mapM WrappedHuggingfaceTransformer._text_length sentences)
    as [lens|e]; simpl; [|reflexivity].
  destruct (mapM (Py.getitem sentences) (argsort lens)) as [sorted|e];
    simpl; [|reflexivity].
  destruct (Py.range 0 (Z.of_nat (List.length sentences)) batch_size)
    as [starts|e]; simpl; [|reflexivity].
  match goal with |- context [for_each ?l ?a ?b log] =>
    destruct (for_each l a b log) as [[all|e] log'] end; [|reflexivity].
  destruct (mapM (Py.getitem all) (argsort (map Z.of_nat (argsort lens))));
    [|reflexivity].
  destruct convert_to_tensor, convert_to_numpy; reflexivity.
Qed.

Lemma encode_stages_clip {Emb} argsort (encode_text : list pyval -> bool -> result (list Emb))
    sentences batch_size show_progress_bar convert_to_numpy convert_to_tensor log :
  WrappedOpenCLIPTransformer.encode argsort encode_text sentences batch_size
    show_progress_bar convert_to_numpy convert_to_tensor log
  = staged argsort encode_text true (truthy show_progress_bar) sentences
      batch_size convert_to_numpy convert_to_tensor log.
Proof.
  unfold WrappedOpenCLIPTransformer.encode, staged, prepare, unsort,
    batch_loop, batch_at, bind, lift.
  change WrappedOpenCLIPTransformer._text_length
    with WrappedHuggingfaceTransformer._text_length.
  destruct (mapM WrappedHuggingfaceTransformer._text_length sentences)
    as [lens|e]; simpl; [|reflexivity].
  destruct (mapM (Py.getitem sentences) (argsort lens)) as [sorted|e];
    simpl; [|reflexivity].
  destruct (truthy show_progress_bar).
  - reflexivity.
  - destruct (Py.range 0 (Z.of_nat (List.length sentences)) batch_size)
      as [starts|e]; simpl; [|reflexivity].
    match goal with |- context [for_each ?l ?a ?b log] =>
      destruct (for_each l a b log) as [[all|e] log'] end; [|reflexivity].
    destruct (mapM (Py.getitem all) (argsort (map Z.of_nat (argsort lens))));
      [|reflexivity].
    destruct convert_to_tensor, convert_to_numpy; reflexivity.
Qed.

(** ** Sorting by insertion keeps the promise of [np.argsort] *)

Section Insertion.
Variable before : Z -> Z -> bool.
Hypothesis before_le : forall a b, before a b = true -> a <= b.
Hypothesis after_le : forall a b, before a b = false -> b <= a.

Lemma insert_perm (x : Z * nat) (l : list (Z * nat)) :
  Permutation (Np.insert before x l) (x :: l).
Proof.
  induction l as [|y tl IH]; simpl; [apply Permutation_refl|].
  destruct (before (fst x) (fst y)); [apply Permutation_refl|].
  rewrite IH. apply perm_swap.
Qed.

Lemma insert_sorted (x : Z * nat) (l : list (Z * nat)) :
  StronglySorted Z.le (map fst l) ->
  StronglySorted Z.le (map fst (Np.insert before x l)).
Proof.
  induction l as [|y tl IH]; intros Hs; simpl.
  - repeat constructor.
  - destruct (before (fst x) (fst y)) eqn:Hb; simpl in *.
    + constructor; [assumption|].
      apply before_le in Hb. inversion Hs as [|? ? _ Hall]; subst.
      constructor; [assumption|].
      eapply Forall_impl; [|exact Hall]. simpl; intros; lia.
    + apply after_le in Hb. inversion Hs as [|? ? Htl Hall]; subst.
      constructor; [now apply IH|].
      rewrite (Permutation_map fst (insert_perm x tl)); simpl.
      constructor; assumption.
Qed.

Lemma isort_perm (l : list (Z * nat)) :
  Permutation (fold_right (Np.insert before) [] l) l.
Proof.
  induction l as [|x tl IH]; simpl; [constructor|].
  rewrite insert_perm. now constructor.
Qed.

Lemma isort_sorted (l : list (Z * nat)) :
  StronglySorted Z.le (map fst (fold_right (Np.insert before) [] l)).
Proof.
  induction l as [|x tl IH]; simpl; [constructor|].
  now apply insert_sorted.
Qed.

Lemma combine_seq_key (keys : list Z) (pre : list Z) :
  Forall (fun ki => Np.key_at (pre ++ keys) (snd ki) = fst ki)
         (combine keys (seq (List.length pre) (List.length keys))).
Proof.
  revert pre; induction keys as [|k tl IH]; intros pre; simpl;
    constructor.
  - simpl. unfold Np.key_at. rewrite app_nth2 by lia.
    now rewrite Nat.sub_diag.
  - specialize (IH (pre ++ [k])).
    rewrite <- app_assoc, length_app in IH; simpl in IH.
    now rewrite Nat.add_1_r in IH.
Qed.

Lemma argsort_by_spec : Np.argsort_spec (Np.argsort_by before).
Proof.
  intros keys. unfold Np.argsort_by. split.
  - rewrite (Permutation_map snd (isort_perm _)).
    assert (H : forall (l : list Z) (s : list nat),
               List.length l = List.length s -> map snd (combine l s) = s).
    { induction l as [|a l IH]; intros [|b s] Hl; simpl in *;
        try discriminate; [reflexivity|]. f_equal. apply IH. lia. }
    rewrite H by now rewrite length_seq. apply Permutation_refl.
  - rewrite map_map.
    rewrite (map_ext_in _ fst).
    + apply isort_sorted.
    + intros ki Hin.
      pose proof (combine_seq_key keys []) as Hall. simpl in Hall.
      rewrite Forall_forall in Hall. apply Hall.
      eapply Permutation_in; [apply isort_perm|exact Hin].
Qed.

End Insertion.

Lemma stable_argsort_spec : Np.argsort_spec Np.stable_argsort.
Proof.
  apply argsort_by_spec; intros a b H.
  - now apply Z.leb_le.
  - apply Z.leb_gt in H. lia.
Qed.

Lemma reversing_argsort_spec : Np.argsort_spec Np.reversing_argsort.
Proof.
  apply argsort_by_spec; intros a b H.
  - apply Z.ltb_lt in H. lia.
  - now apply Z.ltb_ge.
Qed.

(** ** Sorting a permutation of [0 .. n-1] inverts it *)

Lemma sorted_perm_unique (l1 l2 : list Z) :
  StronglySorted Z.le l1 -> StronglySorted Z.le l2 ->
  Permutation l1 l2 -> l1 = l2.
Proof.
  revert l2; induction l1 as [|a t1 IH]; intros l2 H1 H2 HP.
  - apply Permutation_nil in HP. now subst.
  - destruct l2 as [|b t2].
    + apply Permutation_sym, Permutation_nil in HP. discriminate.
    + inversion H1 as [|? ? Hs1 Ha]; inversion H2 as [|? ? Hs2 Hb]; subst.
      assert (a = b) as ->.
      { assert (Hin1 : In a (b :: t2))
          by (eapply Permutation_in; [exact HP|now left]).
        assert (Hin2 : In b (a :: t1))
          by (eapply Permutation_in;
              [apply Permutation_sym; exact HP|now left]).
        rewrite Forall_forall in Ha, Hb.
        destruct Hin1 as [->|Hin1]; [reflexivity|].
        destruct Hin2 as [->|Hin2]; [reflexivity|].
        specialize (Ha _ Hin2). specialize (Hb _ Hin1). lia. }
      f_equal. apply IH; try assumption.
      eapply Permutation_cons_inv; exact HP.
Qed.

Lemma seq_sorted (n start : nat) :
  StronglySorted Z.le (map Z.of_nat (seq start n)).
Proof.
  revert start; induction n as [|n IH]; intros start; simpl;
    constructor; [apply IH|].
  apply Forall_forall. intros z Hz.
  apply in_map_iff in Hz as (i & <- & Hi). apply in_seq in Hi. lia.
Qed.

Lemma map_nth_seq {A} (l : list A) (d : A) :
  map (fun i => nth i l d) (seq 0 (List.length l)) = l.
Proof.
  induction l as [|x tl IH]; simpl; [reflexivity|].
  f_equal. rewrite <- seq_shift, map_map. exact IH.
Qed.

Lemma of_nat_map_inj (l1 l2 : list nat) :
  map Z.of_nat l1 = map Z.of_nat l2 -> l1 = l2.
Proof.
  revert l2; induction l1 as [|a t IH]; intros [|b t2] H; simpl in H;
    try discriminate; [reflexivity|].
  injection H as Hab Ht. apply Nat2Z.inj in Hab. f_equal; auto.
Qed.

(** The second [np.argsort], applied to the index permutation itself,
    yields the inverse permutation. *)
Lemma argsort_inverts (argsort : list Z -> list nat) (p : list nat) (n : nat) :
  Np.argsort_spec argsort ->
  Permutation p (seq 0 n) ->
  map (fun j => nth j p 0%nat) (argsort (map Z.of_nat p)) = seq 0 n.
Proof.
  intros Hspec Hp.
  destruct (Hspec (map Z.of_nat p)) as [Hq Hs].
  rewrite length_map in Hq.
  apply of_nat_map_inj. apply sorted_perm_unique.
  - rewrite map_map.
    erewrite map_ext; [exact Hs|].
    intros j. unfold Np.key_at.
    change 0 with (Z.of_nat 0). now rewrite map_nth.
  - apply seq_sorted.
  - apply Permutation_map.
    rewrite (Permutation_map (fun j => nth j p 0%nat) Hq).
    rewrite map_nth_seq. exact Hp.
Qed.

(** ** The batch loop *)

Lemma batch_loop_run {Emb} (encode_text : list pyval -> bool -> result (list Emb))
    projection sorted batch_size starts acc log :
  (forall s, In s starts ->
     exists rows, encode_text (batch_at sorted batch_size s) projection = Ok rows) ->
  exists rowss,
    Forall2 (fun s rows =>
               encode_text (batch_at sorted batch_size s) projection = Ok rows)
            starts rowss /\
    batch_loop encode_text projection sorted batch_size starts acc log
    = (Ok (acc ++ List.concat rowss),
       log ++ map (fun s => (batch_at sorted batch_size s, projection)) starts).
Proof.
  revert acc log; induction starts as [|s tl IH]; intros acc log Hok.
  - exists []. split; [constructor|].
    simpl. unfold ret. now rewrite !app_nil_r.
  - destruct (Hok s (or_introl eq_refl)) as [rows Hrows].
    destruct (IH (acc ++ rows) (log ++ [(batch_at sorted batch_size s, projection)]))
      as (rowss & HF & Hrun).
    { intros s' Hs'. apply Hok. now right. }
    exists (rows :: rowss). split; [now constructor|].
    unfold batch_loop in *. simpl.
    unfold bind at 1. unfold bind at 1. unfold invoke at 1. rewrite Hrows.
    unfold ret at 1. rewrite Hrun. simpl.
    now rewrite <- !app_assoc.
Qed.

(** The calls the loop logs all carry the loop's [projection] value. *)
Lemma batch_loop_log {Emb} (encode_text : list pyval -> bool -> result (list Emb))
    projection sorted batch_size starts acc log :
  exists calls,
    snd (batch_loop encode_text projection sorted batch_size starts acc log)
    = log ++ calls /\
    Forall (fun c => snd c = projection) calls.
Proof.
  revert acc log; induction starts as [|s tl IH]; intros acc log.
  - exists []. split; [|constructor]. simpl. now rewrite app_nil_r.
  - unfold batch_loop in *. simpl.
    unfold bind at 1. unfold bind at 1. unfold invoke at 1.
    destruct (encode_text (batch_at sorted batch_size s) projection)
      as [rows|e].
    + unfold ret at 1.
      destruct (IH (acc ++ rows)
                   (log ++ [(batch_at sorted batch_size s, projection)]))
        as (calls & Hlog & Hall).
      exists ((batch_at sorted batch_size s, projection) :: calls).
      split; [|now constructor].
      rewrite Hlog. now rewrite <- app_assoc.
    + exists [(batch_at sorted batch_size s, projection)].
      split; [reflexivity|]. now constructor.
Qed.

(** ** Chunks *)

Lemma range_starts (n : nat) (batch_size : Z) :
  0 < batch_size ->
  Py.range 0 (Z.of_nat n) batch_size
  = Ok (map (fun i => Z.of_nat i * batch_size)
            (seq 0 (Z.to_nat (Py.range_length 0 (Z.of_nat n) batch_size)))).
Proof.
  intros Hb. unfold Py.range.
  replace (batch_size =? 0) with false by (symmetry; apply Z.eqb_neq; lia).
  reflexivity.
Qed.

Lemma chunk_count (n : nat) (batch_size : Z) :
  0 < batch_size ->
  let m := Z.to_nat (Py.range_length 0 (Z.of_nat n) batch_size) in
  (n <= m * Z.to_nat batch_size)%nat /\
  (forall i, (i < m)%nat -> (i * Z.to_nat batch_size < n)%nat) /\
  Z.of_nat m = (Z.of_nat n + batch_size - 1) / batch_size.
Proof.
  intros Hb m. subst m. unfold Py.range_length.
  replace (0 <? batch_size) with true by (symmetry; apply Z.ltb_lt; lia).
  destruct (0 <? Z.of_nat n) eqn:Hn.
  - apply Z.ltb_lt in Hn.
    replace (Z.of_nat n - 0 - 1) with (Z.of_nat n - 1) by lia.
    set (q := (Z.of_nat n - 1) / batch_size).
    assert (Hq0 : 0 <= q) by (apply Z.div_pos; lia).
    assert (Hlo : batch_size * q <= Z.of_nat n - 1)
      by (apply Z.mul_div_le; lia).
    assert (Hhi : Z.of_nat n - 1 < batch_size * Z.succ q)
      by (apply Z.mul_succ_div_gt; lia).
    repeat split.
    + apply Nat2Z.inj_le. rewrite Nat2Z.inj_mul, !Z2Nat.id by lia. lia.
    + intros i Hi. apply Nat2Z.inj_lt.
      rewrite Nat2Z.inj_mul, Z2Nat.id by lia.
      assert (Z.of_nat i <= q) by lia. nia.
    + rewrite Z2Nat.id by lia.
      replace (Z.of_nat n + batch_size - 1)
        with (Z.of_nat n - 1 + 1 * batch_size) by lia.
      rewrite Z.div_add by lia. reflexivity.
  - apply Z.ltb_ge in Hn. assert (n = 0%nat) by lia. subst n.
    repeat split; simpl; try lia.
    rewrite Z.div_small by lia. reflexivity.
Qed.

Lemma slice_chunk {A} (l : list A) (batch_size : Z) (i : nat) :
  0 < batch_size ->
  (i * Z.to_nat batch_size < List.length l)%nat ->
  Py.slice l (Z.of_nat i * batch_size) (Z.of_nat i * batch_size + batch_size)
  = firstn (Z.to_nat batch_size) (skipn (i * Z.to_nat batch_size) l).
Proof.
  intros Hb Hi. unfold Py.slice, Py.clip.
  set (n := Z.of_nat (List.length l)).
  set (lo := Z.of_nat i * batch_size).
  assert (Hlo : Z.to_nat lo = (i * Z.to_nat batch_size)%nat).
  { subst lo. rewrite Z2Nat.inj_mul, Nat2Z.id by lia. reflexivity. }
  assert (Hlo0 : 0 <= lo) by (subst lo; nia).
  assert (Hlon : lo < n).
  { subst n. rewrite <- (Z2Nat.id lo) by lia. rewrite Hlo. lia. }
  cbv zeta.
  destruct (lo <? 0) eqn:E1; [apply Z.ltb_lt in E1; lia|].
  destruct (lo <? 0) eqn:E2; [discriminate|].
  destruct (n <? lo) eqn:E3; [apply Z.ltb_lt in E3; lia|].
  destruct (lo + batch_size <? 0) eqn:E4; [apply Z.ltb_lt in E4; lia|].
  destruct (lo + batch_size <? 0) eqn:E5; [discriminate|].
  rewrite Hlo.
  destruct (n <? lo + batch_size) eqn:Hhi.
  - apply Z.ltb_lt in Hhi.
    rewrite !firstn_all2; try reflexivity; rewrite length_skipn; lia.
  - f_equal. lia.
Qed.

Lemma concat_chunks {A} (b m : nat) (l : list A) :
  (0 < b)%nat -> (List.length l <= m * b)%nat ->
  List.concat (map (fun i => firstn b (skipn (i * b) l)) (seq 0 m)) = l.
Proof.
  intros Hb. revert l; induction m as [|m IH]; intros l Hl.
  - destruct l; [reflexivity|simpl in Hl; lia].
  - cbn [seq map concat]. rewrite <- seq_shift, map_map.
    rewrite (map_ext _ (fun i => firstn b (skipn (i * b) (skipn b l)))).
    + cbn [List.concat]. rewrite IH; [apply firstn_skipn|].
      rewrite length_skipn. simpl in Hl. lia.
    + intros i. rewrite skipn_skipn. do 2 f_equal. simpl. lia.
Qed.

(** The batches the loop slices out of a list: contiguous, in order,
    none empty, none longer than the batch size. *)
Lemma batches_partition (sorted : list pyval) (batch_size : Z) :
  0 < batch_size ->
  let starts :=
    map (fun i => Z.of_nat i * batch_size)
        (seq 0 (Z.to_nat (Py.range_length 0 (Z.of_nat (List.length sorted))
                                          batch_size))) in
  let batches := map (batch_at sorted batch_size) starts in
  List.concat batches = sorted /\
  Forall (fun b => 1 <= Z.of_nat (List.length b) <= batch_size) batches /\
  Z.of_nat (List.length batches)
  = (Z.of_nat (List.length sorted) + batch_size - 1) / batch_size.
Proof.
  intros Hb starts batches.
  destruct (chunk_count (List.length sorted) batch_size Hb) as (Hup & Hlow & Hm).
  set (m := Z.to_nat (Py.range_length 0 (Z.of_nat (List.length sorted)) batch_size)) in *.
  assert (Hbat : batches
                 = map (fun i => firstn (Z.to_nat batch_size)
                                   (skipn (i * Z.to_nat batch_size) sorted))
                       (seq 0 m)).
  { subst batches starts. rewrite map_map. apply map_ext_in.
    intros i Hin. apply in_seq in Hin. unfold batch_at.
    apply slice_chunk; [assumption|]. apply Hlow. lia. }
  repeat split.
  - rewrite Hbat. apply concat_chunks; [lia|assumption].
  - rewrite Hbat. apply Forall_forall. intros b Hin.
    apply in_map_iff in Hin as (i & <- & Hin). apply in_seq in Hin.
    assert ((i * Z.to_nat batch_size < List.length sorted)%nat)
      by (apply Hlow; lia).
    rewrite length_firstn, length_skipn. lia.
  - rewrite Hbat. rewrite length_map, length_seq. exact Hm.
Qed.

(** ** Indexing by a list of indices *)

Lemma getitems_ok {A} (l : list A) (idx : list nat) :
  Forall (fun i => (i < List.length l)%nat) idx ->
  exists out,
    mapM (Py.getitem l) idx = Ok out /\
    Forall2 (fun i y => nth_error l i = Some y) idx out.
Proof.
  induction 1 as [|i tl Hi _ (out & Hout & HF)].
  - exists []. split; [reflexivity|constructor].
  - destruct (nth_error l i) as [y|] eqn:Hy;
      [|apply nth_error_None in Hy; lia].
    exists (y :: out). split; [|now constructor].
    simpl. unfold Py.getitem at 1. rewrite Hy. simpl. now rewrite Hout.
Qed.

Lemma Forall2_nth_error {A B} (R : A -> B -> Prop) l l' k a :
  Forall2 R l l' -> nth_error l k = Some a ->
  exists b, nth_error l' k = Some b /\ R a b.
Proof.
  intros HF; revert k; induction HF as [|x y tl tl' Hxy _ IH]; intros k Hk.
  - destruct k; discriminate.
  - destruct k as [|k]; simpl in *.
    + injection Hk as <-. now exists y.
    + now apply IH.
Qed.

Lemma Forall2_length_eq {A B} (R : A -> B -> Prop) l l' :
  Forall2 R l l' -> List.length l = List.length l'.
Proof. induction 1; simpl; congruence. Qed.

Lemma perm_seq_bound (p : list nat) (n : nat) :
  Permutation p (seq 0 n) -> Forall (fun i => (i < n)%nat) p.
Proof.
  intros HP. apply Forall_forall. intros i Hi.
  apply (Permutation_in _ HP), in_seq in Hi. lia.
Qed.

Lemma perm_seq_nodup (p : list nat) (n : nat) :
  Permutation p (seq 0 n) -> NoDup p.
Proof.
  intros HP. eapply Permutation_NoDup; [apply Permutation_sym, HP|].
  apply seq_NoDup.
Qed.

Lemma concat_rows_length {A B} (R : list A -> list B -> Prop)
    (batches : list (list A)) (rowss : list (list B)) :
  Forall2 R batches rowss ->
  (forall b rows, R b rows -> List.length rows = List.length b) ->
  List.length (List.concat rowss) = List.length (List.concat batches).
Proof.
  intros HF Hlen. induction HF as [|b rows tb tr Hbr _ IH]; simpl;
    [reflexivity|].
  rewrite !length_app, IH. f_equal. now apply Hlen.
Qed.

Lemma Forall2_map_l {A B C} (R : B -> C -> Prop) (f : A -> B) l l' :
  Forall2 (fun a c => R (f a) c) l l' -> Forall2 R (map f l) l'.
Proof. induction 1; simpl; constructor; assumption. Qed.

(** ** The sorted sentences *)

Section Sorted.
Variable argsort : list Z -> list nat.
Hypothesis argsort_ok : Np.argsort_spec argsort.
Variables (sentences : list pyval) (keys : list Z).
Hypothesis keys_ok :
  mapM WrappedHuggingfaceTransformer._text_length sentences = Ok keys.

Lemma keys_length : List.length keys = List.length sentences.
Proof. exact (mapM_length _ _ _ keys_ok). Qed.

Lemma idx_perm : Permutation (argsort keys) (seq 0 (List.length sentences)).
Proof. rewrite <- keys_length. apply argsort_ok. Qed.

Lemma sorted_exists :
  exists sorted,
    mapM (Py.getitem sentences) (argsort keys) = Ok sorted /\
    Forall2 (fun i y => nth_error sentences i = Some y) (argsort keys) sorted.
Proof. apply getitems_ok. apply perm_seq_bound, idx_perm. Qed.

Lemma sorted_facts (sorted : list pyval) :
  mapM (Py.getitem sentences) (argsort keys) = Ok sorted ->
  List.length sorted = List.length sentences /\
  Permutation sorted sentences /\
  mapM WrappedHuggingfaceTransformer._text_length sorted
  = Ok (map (Np.key_at keys) (argsort keys)) /\
  forall k i, nth_error (argsort keys) k = Some i ->
              nth_error sorted k = nth_error sentences i.
Proof.
  intros Hsorted.
  assert (HF : Forall2 (fun i y => nth_error sentences i = Some y)
                       (argsort keys) sorted).
  { apply mapM_ok_iff in Hsorted.
    eapply Forall2_impl; [|exact Hsorted].
    intros i y. unfold Py.getitem.
    destruct (nth_error sentences i); [congruence|discriminate]. }
  assert (Heq : sorted = map (fun i => nth i sentences PNone) (argsort keys)).
  { clear Hsorted. induction HF as [|i y ti ty Hiy _ IH]; simpl;
      [reflexivity|].
    f_equal; [|exact IH]. symmetry. now apply nth_error_nth. }
  repeat split.
  - rewrite (mapM_length _ _ _ Hsorted).
    rewrite (Permutation_length idx_perm). apply length_seq.
  - rewrite Heq.
    rewrite (Permutation_map (fun i => nth i sentences PNone) idx_perm).
    rewrite map_nth_seq. apply Permutation_refl.
  - apply mapM_ok_iff. apply mapM_ok_iff in keys_ok.
    clear Heq Hsorted.
    induction HF as [|i y ti ty Hiy _ IH]; simpl; constructor; [|exact IH].
    destruct (Forall2_nth_error _ _ _ _ _ keys_ok Hiy) as (key & Hkey & Hlen).
    rewrite Hlen. f_equal. unfold Np.key_at. symmetry.
    now apply nth_error_nth.
  - intros k i Hk.
    destruct (Forall2_nth_error _ _ _ _ _ HF Hk) as (y & Hy & Hiy).
    congruence.
Qed.

End Sorted.

(** ** A run of [encode], stage by stage *)

Section Run.
Context {Emb : Type}.
Variable argsort : list Z -> list nat.
Variable encode_text : list pyval -> bool -> result (list Emb).
Variable projection : bool.
Hypothesis argsort_ok : Np.argsort_spec argsort.
Variables (sentences : list pyval) (keys : list Z) (batch_size : Z).
Hypothesis keys_ok :
  mapM WrappedHuggingfaceTransformer._text_length sentences = Ok keys.
Hypothesis batch_size_pos : 0 < batch_size.

Lemma prepare_run (sorted : list pyval) :
  mapM (Py.getitem sentences) (argsort keys) = Ok sorted ->
  exists starts,
    Py.range 0 (Z.of_nat (List.length sentences)) batch_size = Ok starts /\
    prepare argsort false sentences batch_size
    = Ok (argsort keys, sorted, starts) /\
    let batches := map (batch_at sorted batch_size) starts in
    List.concat batches = sorted /\
    Forall (fun b => 1 <= Z.of_nat (List.length b) <= batch_size) batches /\
    Z.of_nat (List.length batches)
    = (Z.of_nat (List.length sentences) + batch_size - 1) / batch_size.
Proof.
  intros Hsorted.
  destruct (sorted_facts argsort argsort_ok sentences keys keys_ok sorted Hsorted)
    as (Hlen & _).
  eexists. split; [apply range_starts; assumption|]. split.
  - unfold prepare. rewrite keys_ok; simpl. rewrite Hsorted; simpl.
    rewrite range_starts by assumption. reflexivity.
  - rewrite <- Hlen. apply batches_partition. assumption.
Qed.

(** With a model that answers every batch, the loop runs over all
    batches and logs one call for each. *)
Lemma staged_run convert_to_numpy convert_to_tensor log :
  (forall batch, exists rows, encode_text batch projection = Ok rows) ->
  exists sorted starts rowss,
    mapM (Py.getitem sentences) (argsort keys) = Ok sorted /\
    Py.range 0 (Z.of_nat (List.length sentences)) batch_size = Ok starts /\
    Forall2 (fun start rows =>
               encode_text (batch_at sorted batch_size start) projection
               = Ok rows) starts rowss /\
    staged argsort encode_text projection false sentences batch_size
      convert_to_numpy convert_to_tensor log
    = (bind_result (unsort argsort (argsort keys) (List.concat rowss))
         (convert convert_to_tensor convert_to_numpy),
       log ++ map (fun s => (batch_at sorted batch_size s, projection)) starts).
Proof.
  intros Htotal.
  destruct (sorted_exists argsort argsort_ok sentences keys keys_ok)
    as (sorted & Hsorted & _).
  destruct (prepare_run sorted Hsorted) as (starts & Hrange & Hprep & _).
  destruct (batch_loop_run encode_text projection sorted batch_size starts [] log)
    as (rowss & HF & Hloop); [intros; apply Htotal|].
  exists sorted, starts, rowss. repeat split; try assumption.
  unfold staged. rewrite Hprep, Hloop. reflexivity.
Qed.

(** The un-sort step puts the row of sorted position [k] at the
    position the permutation names. *)
Lemma unsort_aligned (all_embeddings : list Emb) :
  List.length all_embeddings = List.length sentences ->
  exists out,
    unsort argsort (argsort keys) all_embeddings = Ok out /\
    List.length out = List.length sentences /\
    forall k i, nth_error (argsort keys) k = Some i ->
                nth_error out i = nth_error all_embeddings k.
Proof.
  intros Hall.
  pose proof (idx_perm argsort argsort_ok sentences keys keys_ok) as Hp.
  set (p := argsort keys) in *.
  set (n := List.length sentences) in *.
  destruct (argsort_ok (map Z.of_nat p)) as [Hq _].
  rewrite length_map, (Permutation_length Hp), length_seq in Hq.
  set (q := argsort (map Z.of_nat p)) in *.
  destruct (getitems_ok all_embeddings q) as (out & Hout & HF).
  { rewrite Hall. now apply perm_seq_bound. }
  exists out. split; [exact Hout|]. split.
  - rewrite <- (Forall2_length_eq _ _ _ HF).
    rewrite (Permutation_length Hq). apply length_seq.
  - intros k i Hk.
    assert (Hi : (i < n)%nat).
    { apply nth_error_In in Hk.
      pose proof (perm_seq_bound _ _ Hp) as Hb.
      rewrite Forall_forall in Hb. now apply Hb. }
    destruct (nth_error q i) as [j|] eqn:Hj.
    2:{ apply nth_error_None in Hj.
        rewrite (Permutation_length Hq), length_seq in Hj. lia. }
    assert (Hjn : (j < n)%nat).
    { apply nth_error_In in Hj.
      pose proof (perm_seq_bound _ _ Hq) as Hb.
      rewrite Forall_forall in Hb. now apply Hb. }
    pose proof (argsort_inverts argsort p n argsort_ok Hp) as Hinv.
    fold q in Hinv.
    assert (Hpj : nth_error p j = Some i).
    { assert (H1 : nth_error (map (fun j => nth j p 0%nat) q) i
                   = Some (nth j p 0%nat))
        by (rewrite nth_error_map, Hj; reflexivity).
      rewrite Hinv in H1.
      rewrite nth_error_seq in H1.
      replace (i <? n)%nat with true in H1
        by (symmetry; apply Nat.ltb_lt; lia).
      simpl in H1. injection H1 as H1.
      rewrite (nth_error_nth' p 0%nat)
        by (rewrite (Permutation_length Hp), length_seq; lia).
      congruence. }
    assert (k = j).
    { pose proof (perm_seq_nodup _ _ Hp) as Hnd.
      rewrite NoDup_nth_error in Hnd. apply Hnd; [|congruence].
      apply nth_error_Some. congruence. }
    subst j.
    destruct (Forall2_nth_error _ _ _ _ _ HF Hj) as (y & Hy & Hally).
    congruence.
Qed.

End Run.

(** ** Input order *)

Lemma convert_returns {Emb : Type} (sentences : list pyval)
    convert_to_tensor convert_to_numpy (out : list Emb) :
  List.length out = List.length sentences ->
  sentences <> [] \/ convert_to_tensor = false ->
  exists e, convert convert_to_tensor convert_to_numpy out = Ok e /\
            rows_of e = out.
Proof.
  intros Hlen Hret. unfold convert, Torch.stack.
  destruct convert_to_tensor.
  - destruct Hret as [Hne|Hf]; [|discriminate].
    destruct out as [|row rows].
    + destruct sentences; [congruence|discriminate].
    + eexists. split; reflexivity.
  - destruct convert_to_numpy; eexists; split; reflexivity.
Qed.

Section Order.
Context {Emb : Type}.
Variable argsort : list Z -> list nat.
Variable encode_text : list pyval -> bool -> result (list Emb).
Variable projection : bool.
Hypothesis argsort_ok : Np.argsort_spec argsort.
Variables (sentences : list pyval) (keys : list Z) (batch_size : Z).
Hypothesis keys_ok :
  mapM WrappedHuggingfaceTransformer._text_length sentences = Ok keys.
Hypothesis batch_size_pos : 0 < batch_size.

Lemma staged_restores_order convert_to_numpy convert_to_tensor log :
  (forall batch, exists rows,
      encode_text batch projection = Ok rows /\
      List.length rows = List.length batch) ->
  restores_order argsort encode_text projection sentences keys batch_size
    convert_to_numpy convert_to_tensor
    (fst (staged argsort encode_text projection false sentences batch_size
            convert_to_numpy convert_to_tensor log)).
Proof.
  intros Hrows.
  destruct (staged_run argsort encode_text projection argsort_ok sentences
              keys batch_size keys_ok batch_size_pos
              convert_to_numpy convert_to_tensor log)
    as (sorted & starts & rowss & Hsorted & Hrange & HF & Hrun).
  { intros batch. destruct (Hrows batch) as (rows & H & _). now exists rows. }
  destruct (prepare_run argsort argsort_ok sentences keys batch_size keys_ok
              batch_size_pos sorted Hsorted)
    as (starts' & Hrange' & _ & Hcat & _).
  assert (starts' = starts) by congruence. subst starts'.
  destruct (sorted_facts argsort argsort_ok sentences keys keys_ok sorted Hsorted)
    as (Hlen & _ & _ & Hnth).
  assert (Hall : List.length (List.concat rowss) = List.length sentences).
  { rewrite <- Hlen, <- Hcat.
    apply (concat_rows_length
             (fun b rows => encode_text b projection = Ok rows)).
    - now apply Forall2_map_l.
    - intros b rows Hb. destruct (Hrows b) as (rows' & H1 & H2). congruence. }
  destruct (unsort_aligned argsort argsort_ok sentences keys keys_ok
              (List.concat rowss) Hall) as (out & Hout & Hlo & Hal).
  exists sorted, starts, rowss, out.
  split; [assumption|]. split; [assumption|].
  split; [exact Hcat|]. split; [exact HF|]. split; [exact Hall|].
  split; [rewrite Hrun; simpl; rewrite Hout; reflexivity|].
  split.
  { intros Hret. rewrite Hrun. simpl. rewrite Hout. simpl.
    apply (convert_returns sentences); assumption. }
  split; [assumption|].
  intros k i Hk. split; [now apply Hnth|now apply Hal].
Qed.

(** A model that embeds each text on its own gives [map f sentences]. *)
Lemma staged_rowwise (f : pyval -> Emb) convert_to_numpy convert_to_tensor log :
  (forall batch, encode_text batch projection = Ok (map f batch)) ->
  fst (staged argsort encode_text projection false sentences batch_size
         convert_to_numpy convert_to_tensor log)
  = convert convert_to_tensor convert_to_numpy (map f sentences).
Proof.
  intros Hf.
  destruct (staged_restores_order convert_to_numpy convert_to_tensor log)
    as (sorted & starts & rowss & out & Hsorted & Hrange & _ & HF & _ & Hres
        & _ & Hlen & Hal).
  { intros batch. exists (map f batch).
    split; [apply Hf|apply length_map]. }
  rewrite Hres. f_equal.
  destruct (prepare_run argsort argsort_ok sentences keys batch_size keys_ok
              batch_size_pos sorted Hsorted)
    as (starts' & Hrange' & _ & Hcat & _).
  assert (starts' = starts) by congruence. subst starts'.
  assert (Hrows : List.concat rowss = map f sorted).
  { rewrite <- Hcat. rewrite concat_map. f_equal.
    clear -HF Hf. induction HF as [|s rows ts tr Hs _ IH]; simpl;
      [reflexivity|].
    f_equal; [|exact IH].
    unfold batch_at. rewrite Hf in Hs. congruence. }
  apply nth_error_ext. intros i.
  destruct (Nat.lt_ge_cases i (List.length sentences)) as [Hi|Hi].
  - pose proof (idx_perm argsort argsort_ok sentences keys keys_ok) as Hp.
    assert (Hin : In i (argsort keys)).
    { eapply Permutation_in; [apply Permutation_sym, Hp|].
      apply in_seq. lia. }
    apply In_nth_error in Hin as (k & Hk).
    destruct (Hal k i Hk) as (Hs & Ho).
    rewrite Ho, Hrows, !nth_error_map, Hs. reflexivity.
  - rewrite (proj2 (nth_error_None _ _)) by lia.
    symmetry. apply nth_error_None. rewrite length_map. lia.
Qed.

End Order.

(** C1: with a positive batch size, texts whose lengths can be
    estimated and a model that returns one row per text of a batch, both
    [encode] methods convert a list [out] of one row per input text in
    input order: the row computed at sorted position [k], where input
    text [i] stands, is [out[i]].  For a model that embeds each text on
    its own by [f], [out] is [map f sentences]. *)
Theorem encode_restores_input_order {Emb : Type}
    (argsort : list Z -> list nat)
    (encode_text_hf encode_text_clip : list pyval -> bool -> result (list Emb))
    (sentences : list pyval) (keys : list Z) (batch_size : Z)
    (progress_hf progress_clip : option bool)
    (convert_to_numpy convert_to_tensor : bool) (log : list call) :
  Np.argsort_spec argsort ->
  mapM WrappedHuggingfaceTransformer._text_length sentences = Ok keys ->
  0 < batch_size ->
  truthy progress_clip = false ->
  (forall batch, exists rows,
      encode_text_hf batch false = Ok rows /\
      List.length rows = List.length batch) ->
  (forall batch, exists rows,
      encode_text_clip batch true = Ok rows /\
      List.length rows = List.length batch) ->
  restores_order argsort encode_text_hf false sentences keys batch_size
    convert_to_numpy convert_to_tensor
    (fst (WrappedHuggingfaceTransformer.encode argsort encode_text_hf
            sentences batch_size progress_hf
            convert_to_numpy convert_to_tensor log)) /\
  restores_order argsort encode_text_clip true sentences keys batch_size
    convert_to_numpy convert_to_tensor
    (fst (WrappedOpenCLIPTransformer.encode argsort encode_text_clip
            sentences batch_size progress_clip
            convert_to_numpy convert_to_tensor log)) /\
  (forall f,
      (forall batch, encode_text_hf batch false = Ok (map f batch)) ->
      fst (WrappedHuggingfaceTransformer.encode argsort encode_text_hf
             sentences batch_size progress_hf
             convert_to_numpy convert_to_tensor log)
      = convert convert_to_tensor convert_to_numpy (map f sentences)) /\
  (forall f,
      (forall batch, encode_text_clip batch true = Ok (map f batch)) ->
      fst (WrappedOpenCLIPTransformer.encode argsort encode_text_clip
             sentences batch_size progress_clip
             convert_to_numpy convert_to_tensor log)
      = convert convert_to_tensor convert_to_numpy (map f sentences)).
Proof.
  intros Hspec Hkeys Hbs Hprog Hhf Hclip.
  rewrite encode_stages_hf, encode_stages_clip, Hprog.
  repeat split.
  - now apply staged_restores_order.
  - now apply staged_restores_order.
  - intros f Hf. now apply (staged_rowwise argsort _ _ Hspec _ keys).
  - intros f Hf. now apply (staged_rowwise argsort _ _ Hspec _ keys).
Qed.

(** The texts used to exercise the theorems: lengths 11, 2, 3 and 2. *)
Lemma encode_restores_input_order_witness :
  let sentences :=
    [PStr "hello world"; PStr "hi"; PList [PInt 5; PInt 6; PInt 7];
     PTuple [PStr "a"; PStr "b"]] in
  let keys := [11; 2; 3; 2] in
  restores_order Np.stable_argsort toy_encode_text false sentences keys 3
    true true
    (fst (WrappedHuggingfaceTransformer.encode Np.stable_argsort
            toy_encode_text sentences 3 None true true [])) /\
  restores_order Np.stable_argsort toy_encode_text true sentences keys 3
    true true
    (fst (WrappedOpenCLIPTransformer.encode Np.stable_argsort
            toy_encode_text sentences 3 (Some false) true true [])) /\
  (forall f,
      (forall batch, toy_encode_text batch false = Ok (map f batch)) ->
      fst (WrappedHuggingfaceTransformer.encode Np.stable_argsort
             toy_encode_text sentences 3 None true true [])
      = convert true true (map f sentences)) /\
  (forall f,
      (forall batch, toy_encode_text batch true = Ok (map f batch)) ->
      fst (WrappedOpenCLIPTransformer.encode Np.stable_argsort
             toy_encode_text sentences 3 (Some false) true true [])
      = convert true true (map f sentences)).
Proof.
  intros sentences keys.
  apply (encode_restores_input_order Np.stable_argsort
           toy_encode_text toy_encode_text sentences keys 3
           None (Some false) true true []).
  - exact stable_argsort_spec.
  - reflexivity.
  - lia.
  - reflexivity.
  - intros batch. eexists. split; [reflexivity|apply length_map].
  - intros batch. eexists. split; [reflexivity|apply length_map].
Defined.

(** ** Batches *)

(** The calls [encode] logs, read as batches of the sorted sentences. *)
Lemma logged_batches {Emb : Type}
    (argsort : list Z -> list nat)
    (encode_text : list pyval -> bool -> result (list Emb))
    (sentences : list pyval) (keys : list Z) (batch_size : Z)
    (show_progress_bar : option bool)
    (convert_to_numpy convert_to_tensor : bool) :
  Np.argsort_spec argsort ->
  mapM WrappedHuggingfaceTransformer._text_length sentences = Ok keys ->
  0 < batch_size ->
  (forall batch, exists rows, encode_text batch false = Ok rows) ->
  exists sorted batches,
    mapM (Py.getitem sentences) (argsort keys) = Ok sorted /\
    snd (WrappedHuggingfaceTransformer.encode argsort encode_text sentences
           batch_size show_progress_bar convert_to_numpy convert_to_tensor [])
    = map (fun batch => (batch, false)) batches /\
    List.concat batches = sorted /\
    Forall (fun batch => 1 <= Z.of_nat (List.length batch) <= batch_size)
           batches /\
    Z.of_nat (List.length batches)
    = (Z.of_nat (List.length sentences) + batch_size - 1) / batch_size /\
    (sentences <> [] -> Z.of_nat (List.length sentences) <= batch_size ->
     batches = [sorted]) /\
    (forall x, sentences = [x] -> batches = [[x]]).
Proof.
  intros Hspec Hkeys Hbs Htotal.
  destruct (staged_run argsort encode_text false Hspec sentences keys
              batch_size Hkeys Hbs convert_to_numpy convert_to_tensor [] Htotal)
    as (sorted & starts & rowss & Hsorted & Hrange & HF & Hrun).
  destruct (prepare_run argsort Hspec sentences keys batch_size Hkeys Hbs
              sorted Hsorted)
    as (starts' & Hrange' & _ & Hcat & Hsize & Hcount).
  assert (starts' = starts) by congruence. subst starts'.
  destruct (sorted_facts argsort Hspec sentences keys Hkeys sorted Hsorted)
    as (Hlen & Hperm & _).
  remember (map (batch_at sorted batch_size) starts) as batches eqn:Hbat.
  assert (Hone : sentences <> [] ->
                 Z.of_nat (List.length sentences) <= batch_size ->
                 batches = [sorted]).
  { intros Hne Hle.
    assert (Hn : 0 < Z.of_nat (List.length sentences))
      by (destruct sentences; [congruence|simpl; lia]).
    assert (H1 : (Z.of_nat (List.length sentences) + batch_size - 1)
                 / batch_size = 1).
    { replace (Z.of_nat (List.length sentences) + batch_size - 1)
        with (Z.of_nat (List.length sentences) - 1 + 1 * batch_size) by lia.
      rewrite Z.div_add, Z.div_small by lia. reflexivity. }
    rewrite H1 in Hcount.
    destruct batches as [|b [|b' tl]]; simpl in Hcount; try lia.
    simpl in Hcat. rewrite app_nil_r in Hcat. now subst. }
  exists sorted, batches. repeat split; try assumption.
  - rewrite encode_stages_hf, Hrun. simpl.
    rewrite Hbat. now rewrite map_map.
  - intros x Hx. subst sentences.
    apply Permutation_sym, Permutation_length_1_inv in Hperm.
    rewrite <- Hperm. apply Hone; [discriminate|simpl; lia].
Qed.

(** C4: with a positive batch size, [encode] cuts the length-sorted
    sentences into contiguous batches of at most [batch_size] items,
    none of them empty, and calls [encode_text] once per batch, in
    order; a batch size of at least the number of sentences gives one
    batch, and a single sentence a batch of size 1. *)
Theorem encode_batches {Emb : Type}
    (argsort : list Z -> list nat)
    (encode_text : list pyval -> bool -> result (list Emb))
    (sentences : list pyval) (keys : list Z) (batch_size : Z)
    (show_progress_bar : option bool)
    (convert_to_numpy convert_to_tensor : bool) :
  Np.argsort_spec argsort ->
  mapM WrappedHuggingfaceTransformer._text_length sentences = Ok keys ->
  0 < batch_size ->
  (forall batch, exists rows, encode_text batch false = Ok rows) ->
  exists sorted batches,
    mapM (Py.getitem sentences) (argsort keys) = Ok sorted /\
    snd (WrappedHuggingfaceTransformer.encode argsort encode_text sentences
           batch_size show_progress_bar convert_to_numpy convert_to_tensor [])
    = map (fun batch => (batch, false)) batches /\
    List.concat batches = sorted /\
    Forall (fun batch => 1 <= Z.of_nat (List.length batch) <= batch_size)
           batches /\
    Z.of_nat (List.length batches)
    = (Z.of_nat (List.length sentences) + batch_size - 1) / batch_size /\
    (sentences <> [] -> Z.of_nat (List.length sentences) <= batch_size ->
     batches = [sorted]) /\
    (forall x, sentences = [x] -> batches = [[x]]).
Proof.
  intros Hspec Hkeys Hbs Htotal.
  now apply logged_batches.
Qed.

Lemma encode_batches_witness :
  exists sorted batches,
    mapM (Py.getitem [PStr "hello world"; PStr "hi";
                      PList [PInt 5; PInt 6; PInt 7]])
         (Np.stable_argsort [11; 2; 3]) = Ok sorted /\
    snd (WrappedHuggingfaceTransformer.encode Np.stable_argsort
           toy_encode_text
           [PStr "hello world"; PStr "hi"; PList [PInt 5; PInt 6; PInt 7]]
           2 None true true [])
    = map (fun batch => (batch, false)) batches /\
    List.concat batches = sorted /\
    Forall (fun batch => 1 <= Z.of_nat (List.length batch) <= 2) batches /\
    Z.of_nat (List.length batches) = (3 + 2 - 1) / 2 /\
    ([PStr "hello world"; PStr "hi"; PList [PInt 5; PInt 6; PInt 7]] <> [] ->
     3 <= 2 -> batches = [sorted]) /\
    (forall x,
        [PStr "hello world"; PStr "hi"; PList [PInt 5; PInt 6; PInt 7]] = [x] ->
        batches = [[x]]).
Proof.
  apply (encode_batches Np.stable_argsort toy_encode_text
           [PStr "hello world"; PStr "hi"; PList [PInt 5; PInt 6; PInt 7]]
           [11; 2; 3] 2 None true true).
  - exact stable_argsort_spec.
  - reflexivity.
  - lia.
  - intros batch. eexists. reflexivity.
Defined.

(** ** The sort order *)

(** The sentences the model is given, in call order, whatever the
    [projection] value: the sorted sentences. *)
Lemma staged_processed {Emb : Type}
    (argsort : list Z -> list nat)
    (encode_text : list pyval -> bool -> result (list Emb))
    (projection : bool)
    (sentences : list pyval) (keys : list Z) (batch_size : Z)
    (convert_to_numpy convert_to_tensor : bool) (sorted : list pyval) :
  Np.argsort_spec argsort ->
  mapM WrappedHuggingfaceTransformer._text_length sentences = Ok keys ->
  0 < batch_size ->
  (forall batch, exists rows, encode_text batch projection = Ok rows) ->
  mapM (Py.getitem sentences) (argsort keys) = Ok sorted ->
  List.concat
    (map fst
       (snd (staged argsort encode_text projection false sentences batch_size
               convert_to_numpy convert_to_tensor [])))
  = sorted.
Proof.
  intros Hspec Hkeys Hbs Htotal Hsorted.
  destruct (staged_run argsort encode_text projection Hspec sentences keys
              batch_size Hkeys Hbs convert_to_numpy convert_to_tensor [] Htotal)
    as (sorted' & starts & rowss & Hsorted' & Hrange & _ & Hrun).
  assert (sorted' = sorted) by congruence. subst sorted'.
  destruct (prepare_run argsort Hspec sentences keys batch_size Hkeys Hbs
              sorted Hsorted)
    as (starts' & Hrange' & _ & Hcat & _).
  assert (starts' = starts) by congruence. subst starts'.
  rewrite Hrun. simpl. rewrite map_map. simpl. exact Hcat.
Qed.

(** C6, as the code has it: in both wrappers the permutation
    [np.argsort] returns lists every index once and the estimated
    lengths ascend along it; the sentences reach [encode_text] in that
    order.  The order of sentences of equal estimated length is the one
    [np.argsort] picks. *)
Theorem length_sort_ascending {Emb : Type}
    (argsort : list Z -> list nat)
    (encode_text_hf encode_text_clip : list pyval -> bool -> result (list Emb))
    (sentences : list pyval) (keys : list Z) (batch_size : Z)
    (progress_hf progress_clip : option bool)
    (convert_to_numpy convert_to_tensor : bool) :
  Np.argsort_spec argsort ->
  mapM WrappedHuggingfaceTransformer._text_length sentences = Ok keys ->
  0 < batch_size ->
  truthy progress_clip = false ->
  (forall batch, exists rows, encode_text_hf batch false = Ok rows) ->
  (forall batch, exists rows, encode_text_clip batch true = Ok rows) ->
  let processed :=
    List.concat
      (map fst
         (snd (WrappedHuggingfaceTransformer.encode argsort encode_text_hf
                 sentences batch_size progress_hf
                 convert_to_numpy convert_to_tensor []))) in
  let processed_clip :=
    List.concat
      (map fst
         (snd (WrappedOpenCLIPTransformer.encode argsort encode_text_clip
                 sentences batch_size progress_clip
                 convert_to_numpy convert_to_tensor []))) in
  Permutation (argsort keys) (seq 0 (List.length sentences)) /\
  StronglySorted Z.le (map (Np.key_at keys) (argsort keys)) /\
  mapM (Py.getitem sentences) (argsort keys) = Ok processed /\
  processed_clip = processed /\
  Permutation processed sentences /\
  exists lens,
    mapM WrappedHuggingfaceTransformer._text_length processed = Ok lens /\
    StronglySorted Z.le lens.
Proof.
  intros Hspec Hkeys Hbs Hprog Hhf Hclip processed processed_clip.
  destruct (sorted_exists argsort Hspec sentences keys Hkeys)
    as (sorted & Hsorted & _).
  assert (Hproc : processed = sorted).
  { subst processed. rewrite encode_stages_hf.
    now apply (staged_processed argsort encode_text_hf false sentences keys). }
  assert (Hproc' : processed_clip = sorted).
  { subst processed_clip. rewrite encode_stages_clip, Hprog.
    now apply (staged_processed argsort encode_text_clip true sentences keys). }
  destruct (sorted_facts argsort Hspec sentences keys Hkeys sorted Hsorted)
    as (_ & Hperm & Hlens & _).
  rewrite Hproc, Hproc'.
  split; [now apply idx_perm|].
  split; [apply Hspec|].
  split; [assumption|]. split; [reflexivity|]. split; [assumption|].
  eexists. split; [exact Hlens|]. apply Hspec.
Qed.

Lemma length_sort_ascending_witness :
  let sentences := [PStr "hello world"; PStr "hi"; PStr "yo"] in
  let processed :=
    List.concat
      (map fst
         (snd (WrappedHuggingfaceTransformer.encode Np.reversing_argsort
                 toy_encode_text sentences 2 None true true []))) in
  let processed_clip :=
    List.concat
      (map fst
         (snd (WrappedOpenCLIPTransformer.encode Np.reversing_argsort
                 toy_encode_text sentences 2 (Some false) true true []))) in
  Permutation (Np.reversing_argsort [11; 2; 2]) (seq 0 3) /\
  StronglySorted Z.le
    (map (Np.key_at [11; 2; 2]) (Np.reversing_argsort [11; 2; 2])) /\
  mapM (Py.getitem sentences) (Np.reversing_argsort [11; 2; 2]) = Ok processed /\
  processed_clip = processed /\
  Permutation processed sentences /\
  exists lens,
    mapM WrappedHuggingfaceTransformer._text_length processed = Ok lens /\
    StronglySorted Z.le lens.
Proof.
  intros sentences.
  apply (length_sort_ascending Np.reversing_argsort
           toy_encode_text toy_encode_text
           sentences [11; 2; 2] 2 None (Some false) true true).
  - exact reversing_argsort_spec.
  - reflexivity.
  - lia.
  - reflexivity.
  - intros batch. eexists. reflexivity.
  - intros batch. eexists. reflexivity.
Defined.

(** What the promise of [np.argsort] leaves open: for two sentences of
    equal estimated length both index orders keep it, and with an
    [argsort] that returns the second one [encode] hands the later
    sentence to the model first. *)
Lemma argsort_contract_leaves_ties_open :
  Np.argsort_spec Np.reversing_argsort /\
  mapM WrappedHuggingfaceTransformer._text_length [PStr "ab"; PStr "cd"]
  = Ok [2; 2] /\
  Np.is_argsort [2; 2] [0; 1]%nat /\
  Np.is_argsort [2; 2] [1; 0]%nat /\
  Np.reversing_argsort [2; 2] = [1; 0]%nat /\
  WrappedHuggingfaceTransformer.encode Np.reversing_argsort toy_encode_text
    [PStr "ab"; PStr "cd"] 32 None true true []
  = (Ok (Tensor [2; 2]), [([PStr "cd"; PStr "ab"], false)]).
Proof.
  split; [exact reversing_argsort_spec|].
  split; [reflexivity|].
  split; [exact (stable_argsort_spec [2; 2])|].
  split; [exact (reversing_argsort_spec [2; 2])|].
  split; reflexivity.
Qed.

(** C6, the stability part, on a run of the code: eighteen one-letter
    sentences, all of estimated length 1, encoded with the default
    arguments.  numpy's quicksort partitions the eighteen equal keys
    once and swaps equal keys while doing so; in both wrappers a later
    sentence reaches the model before an earlier one of the same
    length (with this sort "p", input position 15, before "b", input
    position 1).  Two sentences are left in input order, as a sort of
    two keys is done by insertion. *)
Lemma length_sort_not_stable :
  let processed :=
    List.concat
      (map fst
         (snd (WrappedHuggingfaceTransformer.encode
                 NpQuicksort.argsort_or_identity toy_encode_text
                 eighteen_letters 32 None true true []))) in
  let processed_clip :=
    List.concat
      (map fst
         (snd (WrappedOpenCLIPTransformer.encode
                 NpQuicksort.argsort_or_identity toy_encode_text
                 eighteen_letters 32 None true true []))) in
  mapM WrappedHuggingfaceTransformer._text_length eighteen_letters
  = Ok (repeat 1 18) /\
  (exists idx, NpQuicksort.argsort (repeat 1 18) = Some idx /\
               Np.is_argsort (repeat 1 18) idx) /\
  NpQuicksort.argsort [2; 2] = Some [0; 1]%nat /\
  exists i j x y p q,
    (i < j)%nat /\
    nth_error eighteen_letters i = Some x /\
    nth_error eighteen_letters j = Some y /\
    WrappedHuggingfaceTransformer._text_length x
    = WrappedHuggingfaceTransformer._text_length y /\
    (q < p)%nat /\
    nth_error processed p = Some x /\ nth_error processed q = Some y /\
    nth_error processed_clip p = Some x /\
    nth_error processed_clip q = Some y.
Proof.
  cbv zeta.
  split; [reflexivity|].
  split.
  { eexists. split; [vm_compute; reflexivity|].
    split.
    - apply (Permutation_trans
               (l' := 0%nat :: rev (seq 1 15) ++ [16; 17]%nat)).
      + reflexivity.
      + change (seq 0 (List.length (repeat 1 18)))
          with (0%nat :: seq 1 15 ++ [16; 17]%nat).
        apply perm_skip, Permutation_app_tail, Permutation_sym,
          Permutation_rev.
    - match goal with |- StronglySorted _ ?l =>
        replace l with (repeat 1 18) by (vm_compute; reflexivity)
      end.
      simpl. repeat constructor; lia. }
  split; [reflexivity|].
  exists 1%nat, 15%nat, (PStr "b"), (PStr "p"), 15%nat, 1%nat.
  repeat split; try reflexivity; lia.
Qed.

(** ** The empty input *)

(** C5, as the code behaves: with the default arguments the empty input
    reaches [torch.stack] with an empty list and [encode] raises; only
    with [convert_to_tensor] false does it return an empty result. *)
Theorem encode_empty_input_raises {Emb : Type}
    (argsort : list Z -> list nat)
    (encode_text : list pyval -> bool -> result (list Emb))
    (log : list call) :
  argsort [] = []%list ->
  WrappedHuggingfaceTransformer.encode_default argsort encode_text [] log
  = (Raise RuntimeError, log) /\
  WrappedOpenCLIPTransformer.encode_default argsort encode_text [] log
  = (Raise RuntimeError, log) /\
  WrappedHuggingfaceTransformer.encode argsort encode_text [] 32 None
    true false log = (Ok (NdArray []), log) /\
  WrappedHuggingfaceTransformer.encode argsort encode_text [] 32 None
    false false log = (Ok (TensorList []), log).
Proof.
  intros Hnil.
  unfold WrappedHuggingfaceTransformer.encode_default,
    WrappedOpenCLIPTransformer.encode_default.
  rewrite !encode_stages_hf, encode_stages_clip.
  unfold staged, prepare, unsort. simpl.
  rewrite Hnil. simpl. rewrite Hnil. simpl.
  repeat split.
Qed.

Lemma encode_empty_input_raises_witness :
  WrappedHuggingfaceTransformer.encode_default Np.stable_argsort
    toy_encode_text [] [] = (Raise RuntimeError, []) /\
  WrappedOpenCLIPTransformer.encode_default Np.stable_argsort
    toy_encode_text [] [] = (Raise RuntimeError, []) /\
  WrappedHuggingfaceTransformer.encode Np.stable_argsort toy_encode_text
    [] 32 None true false [] = (Ok (NdArray []), []) /\
  WrappedHuggingfaceTransformer.encode Np.stable_argsort toy_encode_text
    [] 32 None false false [] = (Ok (TensorList []), []).
Proof.
  apply (encode_empty_input_raises Np.stable_argsort toy_encode_text []).
  reflexivity.
Defined.

(** ** The conversion flags *)






(** ** The two [encode] methods side by side *)

Lemma retag_app projection (l1 l2 : list call) :
  retag projection (l1 ++ l2) = retag projection l1 ++ retag projection l2.
Proof. apply map_app. Qed.

Lemma retag_same projection (calls : list call) :
  Forall (fun c => snd c = projection) calls ->
  retag projection calls = calls.
Proof.
  induction 1 as [|[b flag] tl Hc _ IH]; simpl; [reflexivity|].
  simpl in Hc. subst flag. f_equal. exact IH.
Qed.

Lemma batch_loop_cons {Emb : Type}
    (encode_text : list pyval -> bool -> result (list Emb))
    projection sorted batch_size s starts acc log :
  batch_loop encode_text projection sorted batch_size (s :: starts) acc log
  = match encode_text (batch_at sorted batch_size s) projection with
    | Ok rows =>
        batch_loop encode_text projection sorted batch_size starts
          (acc ++ rows) (log ++ [(batch_at sorted batch_size s, projection)])
    | Raise e =>
        (Raise e, log ++ [(batch_at sorted batch_size s, projection)])
    end.
Proof.
  unfold batch_loop. simpl. unfold bind, invoke, ret.
  destruct (encode_text (batch_at sorted batch_size s) projection);
    reflexivity.
Qed.

Lemma batch_loop_retag {Emb : Type}
    (encode_text : list pyval -> bool -> result (list Emb))
    sorted batch_size starts acc log :
  (forall batch, encode_text batch true = encode_text batch false) ->
  batch_loop encode_text true sorted batch_size starts acc (retag true log)
  = (fst (batch_loop encode_text false sorted batch_size starts acc log),
     retag true
       (snd (batch_loop encode_text false sorted batch_size starts acc log))).
Proof.
  intros Hsame. revert acc log; induction starts as [|s tl IH]; intros acc log.
  - reflexivity.
  - rewrite !batch_loop_cons, Hsame.
    destruct (encode_text (batch_at sorted batch_size s) false) as [rows|e].
    + specialize (IH (acc ++ rows)
                     (log ++ [(batch_at sorted batch_size s, false)])).
      rewrite retag_app in IH. exact IH.
    + simpl. now rewrite retag_app.
Qed.

Lemma staged_retag {Emb : Type} argsort
    (encode_text : list pyval -> bool -> result (list Emb))
    sentences batch_size convert_to_numpy convert_to_tensor :
  (forall batch, encode_text batch true = encode_text batch false) ->
  staged argsort encode_text true false sentences batch_size
    convert_to_numpy convert_to_tensor []
  = (fst (staged argsort encode_text false false sentences batch_size
            convert_to_numpy convert_to_tensor []),
     retag true
       (snd (staged argsort encode_text false false sentences batch_size
               convert_to_numpy convert_to_tensor []))).
Proof.
  intros Hsame. unfold staged.
  destruct (prepare argsort false sentences batch_size)
    as [[[p sorted] starts]|e]; [|reflexivity].
  change (@nil call) with (retag true []) at 1.
  rewrite batch_loop_retag by assumption.
  destruct (batch_loop encode_text false sorted batch_size starts [] [])
    as [[all|e] log']; reflexivity.
Qed.

Lemma staged_log_flags {Emb : Type} argsort
    (encode_text : list pyval -> bool -> result (list Emb))
    projection progress sentences batch_size convert_to_numpy convert_to_tensor :
  Forall (fun c => snd c = projection)
    (snd (staged argsort encode_text projection progress sentences batch_size
            convert_to_numpy convert_to_tensor [])).
Proof.
  unfold staged.
  destruct (prepare argsort progress sentences batch_size)
    as [[[p sorted] starts]|e]; [|constructor].
  destruct (batch_loop_log encode_text projection sorted batch_size starts [] [])
    as (calls & Hlog & Hall).
  destruct (batch_loop encode_text projection sorted batch_size starts [] [])
    as [[all|e] log']; simpl in *; subst log'; exact Hall.
Qed.

(** C7, where it fails: on the one sentence ["a"], with one and the
    same model, the Huggingface wrapper calls it with
    [projection=False] and the OpenCLIP wrapper with [projection=True],
    and the results differ; with [show_progress_bar=True] the one
    returns and the other raises. *)
Lemma encode_projection_differs :
  WrappedHuggingfaceTransformer.encode Np.stable_argsort toy_encode_text
    [PStr "a"] 32 None true true []
  = (Ok (Tensor [1]), [([PStr "a"], false)]) /\
  WrappedOpenCLIPTransformer.encode Np.stable_argsort toy_encode_text
    [PStr "a"] 32 None true true []
  = (Ok (Tensor [1001]), [([PStr "a"], true)]) /\
  WrappedHuggingfaceTransformer.encode Np.stable_argsort toy_encode_text
    [PStr "a"] 32 (Some true) true true []
  = (Ok (Tensor [1]), [([PStr "a"], false)]) /\
  WrappedOpenCLIPTransformer.encode Np.stable_argsort toy_encode_text
    [PStr "a"] 32 (Some true) true true []
  = (Raise NameError, []).
Proof. repeat split. Qed.

(** ** The progress bar *)

(** C9: with a true [show_progress_bar] and texts whose lengths can be
    estimated, the OpenCLIP [encode] raises [NameError] and leaves the
    call log as it was: no batch is encoded.  With a false or absent
    flag it is the staged run without any name lookup.  The Huggingface
    [encode] does not depend on the flag. *)
Theorem progress_bar_name_error {Emb : Type}
    (argsort : list Z -> list nat)
    (encode_text : list pyval -> bool -> result (list Emb))
    (sentences : list pyval) (keys : list Z) (batch_size : Z)
    (convert_to_numpy convert_to_tensor : bool) (log : list call) :
  Np.argsort_spec argsort ->
  mapM WrappedHuggingfaceTransformer._text_length sentences = Ok keys ->
  lookup_global "tqdm" = Raise NameError /\
  (forall flag, truthy flag = true ->
     WrappedOpenCLIPTransformer.encode argsort encode_text sentences
       batch_size flag convert_to_numpy convert_to_tensor log
     = (Raise NameError, log)) /\
  (forall flag, truthy flag = false ->
     WrappedOpenCLIPTransformer.encode argsort encode_text sentences
       batch_size flag convert_to_numpy convert_to_tensor log
     = staged argsort encode_text true false sentences batch_size
         convert_to_numpy convert_to_tensor log) /\
  (forall flag flag',
     WrappedHuggingfaceTransformer.encode argsort encode_text sentences
       batch_size flag convert_to_numpy convert_to_tensor log
     = WrappedHuggingfaceTransformer.encode argsort encode_text sentences
         batch_size flag' convert_to_numpy convert_to_tensor log).
Proof.
  intros Hspec Hkeys.
  split; [reflexivity|]. split; [|split].
  - intros flag Hflag. rewrite encode_stages_clip, Hflag.
    unfold staged, prepare. rewrite Hkeys. simpl.
    destruct (sorted_exists argsort Hspec sentences keys Hkeys)
      as (sorted & Hsorted & _).
    rewrite Hsorted. reflexivity.
  - intros flag Hflag. rewrite encode_stages_clip, Hflag. reflexivity.
  - intros flag flag'. rewrite !encode_stages_hf. reflexivity.
Qed.

Lemma progress_bar_name_error_witness :
  lookup_global "tqdm" = Raise NameError /\
  (forall flag, truthy flag = true ->
     WrappedOpenCLIPTransformer.encode Np.stable_argsort toy_encode_text
       [PStr "hello world"; PStr "hi"] 32 flag true true []
     = (Raise NameError, [])) /\
  (forall flag, truthy flag = false ->
     WrappedOpenCLIPTransformer.encode Np.stable_argsort toy_encode_text
       [PStr "hello world"; PStr "hi"] 32 flag true true []
     = staged Np.stable_argsort toy_encode_text true false
         [PStr "hello world"; PStr "hi"] 32 true true []) /\
  (forall flag flag',
     WrappedHuggingfaceTransformer.encode Np.stable_argsort toy_encode_text
       [PStr "hello world"; PStr "hi"] 32 flag true true []
     = WrappedHuggingfaceTransformer.encode Np.stable_argsort toy_encode_text
         [PStr "hello world"; PStr "hi"] 32 flag' true true []).
Proof.
  apply (progress_bar_name_error Np.stable_argsort toy_encode_text
           [PStr "hello world"; PStr "hi"] [11; 2] 32 true true []).
  - exact stable_argsort_spec.
  - reflexivity.
Defined.

(** ** Dispatch *)

Lemma str_in_iff (x : string) (l : list string) :
  str_in x l = true <-> In x l.
Proof.
  unfold str_in. rewrite existsb_exists. split.
  - intros (y & Hy & Heq). apply String.eqb_eq in Heq. now subst.
  - intros H. exists x. split; [assumption|apply String.eqb_refl].
Qed.

Lemma str_in_false (x : string) (l : list string) :
  str_in x l = false <-> ~ In x l.
Proof.
  rewrite <- str_in_iff. destruct (str_in x l); split; intros H;
    try discriminate; try reflexivity; try (intros H'; discriminate).
  now contradiction H.
Qed.

Lemma disjoint_lists (l1 l2 : list string) :
  forallb (fun x => negb (str_in x l2)) l1 = true ->
  forall m, In m l1 -> In m l2 -> False.
Proof.
  intros Hall m H1 H2. rewrite forallb_forall in Hall.
  specialize (Hall m H1). apply str_in_iff in H2.
  rewrite H2 in Hall. discriminate.
Qed.

(** C3: the three lists are pairwise disjoint; a name in one of them
    builds the adapter of that list, and a name in none of them raises
    (a [TypeError], from [raise 'wtf?']) and builds nothing. *)
Theorem dispatch_by_list (model_name : string) :
  (forall m, In m huggingface_transformers ->
             In m sentence_transformers -> False) /\
  (forall m, In m huggingface_transformers ->
             In m open_clip_transformers -> False) /\
  (forall m, In m sentence_transformers ->
             In m open_clip_transformers -> False) /\
  (In model_name huggingface_transformers ->
   dispatch model_name = Ok (WrappedHuggingfaceTransformer_ model_name)) /\
  (In model_name sentence_transformers ->
   dispatch model_name = Ok (SentenceTransformer_ model_name)) /\
  (In model_name open_clip_transformers ->
   dispatch model_name = Ok (WrappedOpenCLIPTransformer_ model_name)) /\
  (~ In model_name huggingface_transformers ->
   ~ In model_name sentence_transformers ->
   ~ In model_name open_clip_transformers ->
   dispatch model_name = Raise TypeError).
Proof.
  assert (D12 := disjoint_lists huggingface_transformers
                   sentence_transformers eq_refl).
  assert (D13 := disjoint_lists huggingface_transformers
                   open_clip_transformers eq_refl).
  assert (D23 := disjoint_lists sentence_transformers
                   open_clip_transformers eq_refl).
  split; [exact D12|]. split; [exact D13|]. split; [exact D23|].
  unfold dispatch.
  split; [|split; [|split]].
  - intros H. apply str_in_iff in H. now rewrite H.
  - intros H.
    assert (H1 : str_in model_name huggingface_transformers = false).
    { apply str_in_false. intros H'. exact (D12 _ H' H). }
    apply str_in_iff in H. now rewrite H1, H.
  - intros H.
    assert (H1 : str_in model_name huggingface_transformers = false).
    { apply str_in_false. intros H'. exact (D13 _ H' H). }
    assert (H2 : str_in model_name sentence_transformers = false).
    { apply str_in_false. intros H'. exact (D23 _ H' H). }
    apply str_in_iff in H. now rewrite H1, H2, H.
  - intros H1 H2 H3.
    apply str_in_false in H1, H2, H3. now rewrite H1, H2, H3.
Qed.

(** ** The results file *)

Lemma replace_length (old new : ascii) (s : string) :
  String.length (replace old new s) = String.length s.
Proof. induction s as [|c tl IH]; simpl; congruence. Qed.

Lemma replace_get (old new : ascii) (s : string) (i : nat) :
  String.get i (replace old new s)
  = option_map (fun c => if Ascii.eqb c old then new else c) (String.get i s).
Proof.
  revert i; induction s as [|c tl IH]; intros i; simpl; [reflexivity|].
  destruct i; [reflexivity|apply IH].
Qed.

Section ResultsFacts.
Variable Score : Type.

Lemma setitem_keys (d : dict Score) (k0 : string) (v : cell Score) (k : string) :
  In k (map fst (setitem d k0 v)) <-> In k (map fst d) \/ k = k0.
Proof.
  induction d as [|[k' v'] tl IH]; simpl.
  - intuition congruence.
  - destruct (String.eqb k' k0) eqn:Heq; simpl.
    + apply String.eqb_eq in Heq. subst k'. intuition congruence.
    + rewrite IH. tauto.
Qed.

Lemma lookup_setitem_same (d : dict Score) (k : string) (v : cell Score) :
  lookup (setitem d k v) k = Some v.
Proof.
  induction d as [|[k' v'] tl IH]; simpl.
  - now rewrite String.eqb_refl.
  - destruct (String.eqb k' k) eqn:Heq; simpl.
    + now rewrite String.eqb_refl.
    + now rewrite Heq.
Qed.

Lemma lookup_setitem_other (d : dict Score) (k0 k : string) (v : cell Score) :
  k <> k0 -> lookup (setitem d k0 v) k = lookup d k.
Proof.
  intros Hne. induction d as [|[k' v'] tl IH]; simpl.
  - replace (String.eqb k0 k) with false; [reflexivity|].
    symmetry. apply String.eqb_neq. congruence.
  - destruct (String.eqb k' k0) eqn:Heq; simpl.
    + apply String.eqb_eq in Heq. subst k'.
      replace (String.eqb k0 k) with false; [reflexivity|].
      symmetry. apply String.eqb_neq. congruence.
    + now rewrite IH.
Qed.

Lemma setitem_fresh (d : dict Score) (k : string) (v : cell Score) :
  ~ In k (map fst d) -> setitem d k v = d ++ [(k, v)].
Proof.
  induction d as [|[k' v'] tl IH]; simpl; intros Hnin; [reflexivity|].
  destruct (String.eqb k' k) eqn:Heq.
  - apply String.eqb_eq in Heq. tauto.
  - rewrite IH by tauto. reflexivity.
Qed.

Lemma combine_fst_snd (d : dict Score) : combine (map fst d) (map snd d) = d.
Proof.
  induction d as [|[k v] tl IH]; simpl; [reflexivity|]. now rewrite IH.
Qed.

End ResultsFacts.

(** C8: the file is written to
    ['PLM_evaluations/sts-' + m.replace('/', '-') + '.csv'], the name
    keeping its length and losing every ['/'], with a tab as separator
    and one row; its columns are the metric names of the evaluator and
    ["model"], the metrics keep their values, and the ["model"] cell is
    the model name. *)
Theorem results_file {Score : Type} (model_name : string)
    (results : dict Score) :
  let file := write_results model_name results in
  path file
  = ("PLM_evaluations/sts-" ++ replace "/" "-" model_name ++ ".csv")%string /\
  String.length (replace "/" "-" model_name) = String.length model_name /\
  (forall i,
      String.get i (replace "/" "-" model_name)
      = option_map (fun c => if Ascii.eqb c "/" then "-"%char else c)
                   (String.get i model_name)) /\
  (forall i, String.get i (replace "/" "-" model_name) <> Some "/"%char) /\
  sep file = tab /\
  exists row,
    lines file = [row] /\
    List.length row = List.length (header file) /\
    (forall k, In k (header file) <-> In k (map fst results) \/ k = "model") /\
    lookup (combine (header file) row) "model" = Some (Str model_name) /\
    (forall k, k <> "model" ->
               lookup (combine (header file) row) k
               = lookup results k) /\
    (~ In "model" (map fst results) ->
     header file = map fst results ++ ["model"] /\
     row = map snd results ++ [Str model_name]).
Proof.
  intros file. subst file. unfold write_results, to_csv, DataFrame_of. simpl.
  split; [reflexivity|].
  split; [apply replace_length|].
  split; [intros i; apply replace_get|].
  split.
  { intros i. rewrite replace_get.
    destruct (String.get i model_name) as [c|]; simpl; [|discriminate].
    destruct (Ascii.eqb c "/") eqn:Hc; [discriminate|].
    apply Ascii.eqb_neq in Hc. congruence. }
  split; [reflexivity|].
  eexists. split; [reflexivity|].
  split; [now rewrite !length_map|].
  split; [intros k; apply setitem_keys|].
  rewrite combine_fst_snd.
  split; [apply lookup_setitem_same|].
  split; [intros k Hk; now apply lookup_setitem_other|].
  intros Hfresh. rewrite setitem_fresh by assumption.
  rewrite !map_app. split; reflexivity.
Qed.

(** ** Runs on concrete inputs *)

(** Four items of estimated lengths 11, 2, 3 and 2 in batches of three:
    the model sees [hi, (a, b), [5, 6, 7]] and then [hello world]; the
    rows come back in input order. *)
Example encode_four_items :
  WrappedHuggingfaceTransformer.encode Np.stable_argsort toy_encode_text
    [PStr "hello world"; PStr "hi"; PList [PInt 5; PInt 6; PInt 7];
     PTuple [PStr "a"; PStr "b"]] 3 None true true []
  = (Ok (Tensor [11; 2; 3; 2]),
     [([PStr "hi"; PTuple [PStr "a"; PStr "b"];
        PList [PInt 5; PInt 6; PInt 7]], false);
      ([PStr "hello world"], false)]).
Proof. reflexivity. Qed.

(** The same items with ties reversed by the sort: another batch order,
    the same result. *)
Example encode_four_items_reversed_ties :
  WrappedHuggingfaceTransformer.encode Np.reversing_argsort toy_encode_text
    [PStr "hello world"; PStr "hi"; PList [PInt 5; PInt 6; PInt 7];
     PTuple [PStr "a"; PStr "b"]] 3 None true true []
  = (Ok (Tensor [11; 2; 3; 2]),
     [([PTuple [PStr "a"; PStr "b"]; PStr "hi";
        PList [PInt 5; PInt 6; PInt 7]], false);
      ([PStr "hello world"], false)]).
Proof. reflexivity. Qed.

(** A batch size of zero is refused by [range]; a negative one leaves
    the loop without iterations, and the un-sort then indexes an empty
    list. *)
Example encode_batch_size_zero :
  WrappedHuggingfaceTransformer.encode Np.stable_argsort toy_encode_text
    [PStr "a"] 0 None true true [] = (Raise ValueError, []).
Proof. reflexivity. Qed.

Example encode_batch_size_negative :
  WrappedHuggingfaceTransformer.encode Np.stable_argsort toy_encode_text
    [PStr "a"] (-1) None true true [] = (Raise IndexError, []).
Proof. reflexivity. Qed.

(** An item whose length cannot be estimated stops [encode] before any
    batch: an empty dict, a list of items without length. *)
Example encode_empty_dict :
  WrappedHuggingfaceTransformer.encode Np.stable_argsort toy_encode_text
    [PStr "a"; PDict []] 32 None true true [] = (Raise StopIteration, []).
Proof. reflexivity. Qed.

Example text_length_list_of_none :
  WrappedHuggingfaceTransformer._text_length (PList [PNone; PNone])
  = Raise TypeError.
Proof. reflexivity. Qed.

Example dispatch_examples :
  dispatch "roberta-base" = Ok (WrappedHuggingfaceTransformer_ "roberta-base") /\
  dispatch "average_word_embeddings_komninos"
  = Ok (SentenceTransformer_ "average_word_embeddings_komninos") /\
  dispatch "ViT-B-32" = Ok (WrappedOpenCLIPTransformer_ "ViT-B-32") /\
  dispatch "RN50x64" = Raise TypeError.
Proof. repeat split. Qed.

Example results_path_example :
  path (write_results (Score := Z) "princeton-nlp/sup-simcse-roberta-large"
          [("sts12", Num 75); ("stsb", Num 86)])
  = "PLM_evaluations/sts-princeton-nlp-sup-simcse-roberta-large.csv" /\
  header (write_results (Score := Z) "princeton-nlp/sup-simcse-roberta-large"
            [("sts12", Num 75); ("stsb", Num 86)])
  = ["sts12"; "stsb"; "model"] /\
  lines (write_results (Score := Z) "princeton-nlp/sup-simcse-roberta-large"
           [("sts12", Num 75); ("stsb", Num 86)])
  = [[Num 75; Num 86; Str "princeton-nlp/sup-simcse-roberta-large"]].
Proof. repeat split. Qed.

(** * Further properties of the script *)

(** ** Outcomes of the length estimate *)

Lemma len_outcome (x : pyval) :
  match Py.len x with
  | Ok n => 0 <= n
  | Raise e => e = TypeError /\ Py.hasattr_len x = false
  end.
Proof. destruct x; simpl; try lia; auto. Qed.

Lemma mapM_len_outcome (l : list pyval) :
  match mapM Py.len l with
  | Ok ns => Forall (fun n => 0 <= n) ns
  | Raise e => e = TypeError /\ exists y, In y l /\ Py.hasattr_len y = false
  end.
Proof.
  induction l as [|x tl IH]; simpl; [constructor|].
  pose proof (len_outcome x) as Hx.
  destruct (Py.len x) as [n|e]; simpl.
  - destruct (mapM Py.len tl) as [ns|e]; simpl.
    + now constructor.
    + destruct IH as (-> & y & Hy & Hlen). split; [reflexivity|].
      exists y. split; [now right|assumption].
  - destruct Hx as (-> & Hlen). split; [reflexivity|].
    exists x. split; [now left|assumption].
Qed.

Lemma mapM_len_raises (l : list pyval) (y : pyval) :
  In y l -> Py.hasattr_len y = false -> mapM Py.len l = Raise TypeError.
Proof.
  intros Hin Hy.
  pose proof (mapM_len_outcome l) as H.
  destruct (mapM Py.len l) as [ns|e] eqn:Hm.
  - exfalso. apply mapM_ok_iff in Hm.
    apply In_nth_error in Hin as (k & Hk).
    destruct (Forall2_nth_error _ _ _ _ _ Hm Hk) as (n & _ & Hn).
    destruct y; simpl in *; discriminate.
  - destruct H as (-> & _). reflexivity.
Qed.

Lemma sum_nonneg (ns : list Z) :
  Forall (fun n => 0 <= n) ns -> 0 <= Py.sum ns.
Proof.
  induction 1 as [|n tl Hn _ IH]; [unfold Py.sum; simpl; lia|].
  rewrite sum_cons. lia.
Qed.

(** The length estimate of a non-empty list or tuple: its own length
    when the first element is an integer, the summed lengths of all
    elements otherwise. *)
Lemma text_length_items (x0 : pyval) (rest : list pyval) :
  let l := x0 :: rest in
  let by_items :=
    if Py.isinstance_int x0 then Ok (Z.of_nat (List.length l))
    else bind_result (mapM Py.len l) (fun ns => Ok (Py.sum ns)) in
  WrappedHuggingfaceTransformer._text_length (PList l) = by_items /\
  WrappedHuggingfaceTransformer._text_length (PTuple l) = by_items.
Proof.
  intros l by_items. subst l by_items.
  unfold WrappedHuggingfaceTransformer._text_length.
  cbn [Py.isinstance_dict Py.hasattr_len negb Py.len bind_result
       Py.getitem0 Py.iter].
  replace (Z.of_nat (List.length (x0 :: rest)) =? 0) with false
    by (symmetry; apply Z.eqb_neq; simpl; lia).
  destruct (Py.isinstance_int x0); split; reflexivity.
Qed.

(** X1.  The length estimate is a non-negative integer, or a [StopIteration]
    from an empty dict, or a [TypeError] from taking the length of
    something that has none; nothing else comes out of it. *)
Theorem text_length_outcomes (text : pyval) :
  match WrappedHuggingfaceTransformer._text_length text with
  | Ok n => 0 <= n
  | Raise e =>
      (e = StopIteration /\ text = PDict []) \/
      (e = TypeError /\
       ((exists k v rest, text = PDict ((k, v) :: rest) /\
                          Py.hasattr_len v = false) \/
        (exists items y, (text = PList items \/ text = PTuple items) /\
                         In y items /\ Py.hasattr_len y = false)))
  end.
Proof.
  destruct text as [| b | z | s | l | l | kvs].
  - simpl. lia.
  - simpl. lia.
  - simpl. lia.
  - rewrite text_length_str. lia.
  - destruct l as [|x0 rest]; [simpl; lia|].
    destruct (text_length_items x0 rest) as [-> _].
    destruct (Py.isinstance_int x0); [lia|].
    pose proof (mapM_len_outcome (x0 :: rest)) as H.
    destruct (mapM Py.len (x0 :: rest)) as [ns|e]; cbn [bind_result].
    + now apply sum_nonneg.
    + destruct H as (-> & y & Hy & Hlen). right. split; [reflexivity|].
      right. exists (x0 :: rest), y. auto.
  - destruct l as [|x0 rest]; [simpl; lia|].
    destruct (text_length_items x0 rest) as [_ ->].
    destruct (Py.isinstance_int x0); [lia|].
    pose proof (mapM_len_outcome (x0 :: rest)) as H.
    destruct (mapM Py.len (x0 :: rest)) as [ns|e]; cbn [bind_result].
    + now apply sum_nonneg.
    + destruct H as (-> & y & Hy & Hlen). right. split; [reflexivity|].
      right. exists (x0 :: rest), y. auto.
  - destruct kvs as [|[k v] rest].
    + simpl. left. auto.
    + change (WrappedHuggingfaceTransformer._text_length (PDict ((k, v) :: rest)))
        with (Py.len v).
      pose proof (len_outcome v) as H.
      destruct (Py.len v) as [n|e]; [assumption|].
      destruct H as (-> & Hlen). right. split; [reflexivity|].
      left. exists k, v, rest. auto.
Qed.

(** X2.  Whether a list or tuple counts as a sequence of integers is decided
    by its first element alone.  With an integer (or a bool) in front
    the other elements are never looked at; with anything else in
    front, one element without a length anywhere in it is a
    [TypeError]. *)
Theorem text_length_first_element_decides (x0 : pyval) (rest : list pyval) :
  (Py.isinstance_int x0 = true ->
   WrappedHuggingfaceTransformer._text_length (PList (x0 :: rest))
   = Ok (Z.of_nat (List.length (x0 :: rest))) /\
   WrappedHuggingfaceTransformer._text_length (PTuple (x0 :: rest))
   = Ok (Z.of_nat (List.length (x0 :: rest)))) /\
  (Py.isinstance_int x0 = false ->
   forall y, In y (x0 :: rest) -> Py.hasattr_len y = false ->
   WrappedHuggingfaceTransformer._text_length (PList (x0 :: rest))
   = Raise TypeError /\
   WrappedHuggingfaceTransformer._text_length (PTuple (x0 :: rest))
   = Raise TypeError).
Proof.
  destruct (text_length_items x0 rest) as [HL HT]. rewrite HL, HT.
  split.
  - intros Hint. rewrite Hint. split; reflexivity.
  - intros Hint y Hy Hlen. rewrite Hint.
    rewrite (mapM_len_raises _ y Hy Hlen). split; reflexivity.
Qed.

(** ** Failures on the way through [encode] *)

Lemma mapM_raise_first {A B} (f : A -> result B) (l : list A) (e : exn) :
  mapM f l = Raise e ->
  exists pre x post ys,
    l = pre ++ x :: post /\ mapM f pre = Ok ys /\ f x = Raise e.
Proof.
  induction l as [|a tl IH]; simpl; [discriminate|].
  destruct (f a) as [y|e'] eqn:Ha; simpl.
  - destruct (mapM f tl) as [ys|e'] eqn:Htl; simpl; [discriminate|].
    intros H. injection H as ->.
    destruct (IH eq_refl) as (pre & x & post & ys & -> & Hpre & Hx).
    exists (a :: pre), x, post, (y :: ys).
    split; [reflexivity|]. split; [|assumption].
    simpl. now rewrite Ha, Hpre.
  - intros H. injection H as ->.
    exists [], a, tl, []. auto.
Qed.

(** X3.  An item whose length cannot be estimated stops both [encode]
    methods before the model is called: the exception is the one of the
    first such item, a [StopIteration] or a [TypeError], whatever the
    batch size and the flags, and even when the progress bar was asked
    for. *)
Theorem encode_length_failure_first {Emb : Type}
    (argsort : list Z -> list nat)
    (encode_text : list pyval -> bool -> result (list Emb))
    (sentences : list pyval) (e : exn) (batch_size : Z)
    (show_progress_bar : option bool)
    (convert_to_numpy convert_to_tensor : bool) (log : list call) :
  mapM WrappedHuggingfaceTransformer._text_length sentences = Raise e ->
  WrappedHuggingfaceTransformer.encode argsort encode_text sentences
    batch_size show_progress_bar convert_to_numpy convert_to_tensor log
  = (Raise e, log) /\
  WrappedOpenCLIPTransformer.encode argsort encode_text sentences
    batch_size show_progress_bar convert_to_numpy convert_to_tensor log
  = (Raise e, log) /\
  (e = StopIteration \/ e = TypeError) /\
  exists pre x post lens,
    sentences = pre ++ x :: post /\
    mapM WrappedHuggingfaceTransformer._text_length pre = Ok lens /\
    WrappedHuggingfaceTransformer._text_length x = Raise e.
Proof.
  intros Hfail.
  rewrite encode_stages_hf, encode_stages_clip.
  unfold staged, prepare. rewrite Hfail. simpl.
  split; [reflexivity|]. split; [reflexivity|].
  destruct (mapM_raise_first _ _ _ Hfail) as (pre & x & post & lens & Hs & Hpre & Hx).
  split.
  - pose proof (text_length_outcomes x) as H. rewrite Hx in H.
    destruct H as [(-> & _)|(-> & _)]; auto.
  - exists pre, x, post, lens. auto.
Qed.

Lemma encode_length_failure_first_witness :
  WrappedHuggingfaceTransformer.encode Np.stable_argsort toy_encode_text
    [PStr "a"; PList [PStr "b"; PInt 3]; PDict []] 0 (Some true) true true []
  = (Raise TypeError, []) /\
  WrappedOpenCLIPTransformer.encode Np.stable_argsort toy_encode_text
    [PStr "a"; PList [PStr "b"; PInt 3]; PDict []] 0 (Some true) true true []
  = (Raise TypeError, []) /\
  (TypeError = StopIteration \/ TypeError = TypeError) /\
  exists pre x post lens,
    [PStr "a"; PList [PStr "b"; PInt 3]; PDict []] = pre ++ x :: post /\
    mapM WrappedHuggingfaceTransformer._text_length pre = Ok lens /\
    WrappedHuggingfaceTransformer._text_length x = Raise TypeError.
Proof.
  apply (encode_length_failure_first Np.stable_argsort toy_encode_text
           [PStr "a"; PList [PStr "b"; PInt 3]; PDict []] TypeError
           0 (Some true) true true []).
  reflexivity.
Defined.

Section BatchSizes.
Context {Emb : Type}.
Variable argsort : list Z -> list nat.
Variable encode_text : list pyval -> bool -> result (list Emb).
Hypothesis argsort_ok : Np.argsort_spec argsort.
Variables (sentences : list pyval) (keys : list Z).
Hypothesis keys_ok :
  mapM WrappedHuggingfaceTransformer._text_length sentences = Ok keys.

Lemma prepare_any_batch_size (batch_size : Z) :
  exists sorted,
    mapM (Py.getitem sentences) (argsort keys) = Ok sorted /\
    prepare argsort false sentences batch_size
    = bind_result (Py.range 0 (Z.of_nat (List.length sentences)) batch_size)
        (fun starts => Ok (argsort keys, sorted, starts)).
Proof.
  destruct (sorted_exists argsort argsort_ok sentences keys keys_ok)
    as (sorted & Hsorted & _).
  exists sorted. split; [assumption|].
  unfold prepare. rewrite keys_ok. simpl. rewrite Hsorted. reflexivity.
Qed.

Lemma staged_batch_size_zero projection convert_to_numpy convert_to_tensor log :
  staged argsort encode_text projection false sentences 0
    convert_to_numpy convert_to_tensor log = (Raise ValueError, log).
Proof.
  destruct (prepare_any_batch_size 0) as (sorted & _ & Hprep).
  unfold staged. rewrite Hprep. reflexivity.
Qed.

Lemma staged_batch_size_negative batch_size projection
    convert_to_numpy convert_to_tensor log :
  batch_size < 0 -> sentences <> [] ->
  staged argsort encode_text projection false sentences batch_size
    convert_to_numpy convert_to_tensor log = (Raise IndexError, log).
Proof.
  intros Hneg Hne.
  destruct (prepare_any_batch_size batch_size) as (sorted & _ & Hprep).
  unfold staged. rewrite Hprep.
  unfold Py.range, Py.range_length.
  replace (batch_size =? 0) with false by (symmetry; apply Z.eqb_neq; lia).
  replace (0 <? batch_size) with false by (symmetry; apply Z.ltb_ge; lia).
  replace (Z.of_nat (List.length sentences) <? 0) with false
    by (symmetry; apply Z.ltb_ge; lia).
  simpl. unfold ret, unsort.
  pose proof (idx_perm argsort argsort_ok sentences keys keys_ok) as Hp.
  destruct (argsort_ok (map Z.of_nat (argsort keys))) as [Hq _].
  rewrite length_map, (Permutation_length Hp), length_seq in Hq.
  destruct (argsort (map Z.of_nat (argsort keys))) as [|j q].
  - apply Permutation_length in Hq. rewrite length_seq in Hq.
    destruct sentences; [congruence|discriminate].
  - simpl. unfold Py.getitem at 1. destruct j; reflexivity.
Qed.

End BatchSizes.

(** X4.  A batch size of zero: once the lengths are estimated and the
    sentences sorted, [range] refuses the zero step, and both [encode]
    methods raise [ValueError] without a call of the model. *)
Theorem encode_batch_size_zero_raises {Emb : Type}
    (argsort : list Z -> list nat)
    (encode_text : list pyval -> bool -> result (list Emb))
    (sentences : list pyval) (keys : list Z)
    (progress_hf progress_clip : option bool)
    (convert_to_numpy convert_to_tensor : bool) (log : list call) :
  Np.argsort_spec argsort ->
  mapM WrappedHuggingfaceTransformer._text_length sentences = Ok keys ->
  truthy progress_clip = false ->
  WrappedHuggingfaceTransformer.encode argsort encode_text sentences 0
    progress_hf convert_to_numpy convert_to_tensor log
  = (Raise ValueError, log) /\
  WrappedOpenCLIPTransformer.encode argsort encode_text sentences 0
    progress_clip convert_to_numpy convert_to_tensor log
  = (Raise ValueError, log).
Proof.
  intros Hspec Hkeys Hprog.
  rewrite encode_stages_hf, encode_stages_clip, Hprog.
  split; now apply (staged_batch_size_zero argsort _ Hspec _ keys).
Qed.

Lemma encode_batch_size_zero_raises_witness :
  WrappedHuggingfaceTransformer.encode Np.stable_argsort toy_encode_text
    [PStr "hello world"; PStr "hi"] 0 (Some true) false false []
  = (Raise ValueError, []) /\
  WrappedOpenCLIPTransformer.encode Np.stable_argsort toy_encode_text
    [PStr "hello world"; PStr "hi"] 0 None false false []
  = (Raise ValueError, []).
Proof.
  apply (encode_batch_size_zero_raises Np.stable_argsort toy_encode_text
           [PStr "hello world"; PStr "hi"] [11; 2] (Some true) None
           false false []).
  - exact stable_argsort_spec.
  - reflexivity.
  - reflexivity.
Defined.

(** X5.  A negative batch size: the loop has nothing to iterate over, no
    batch is encoded, and for a non-empty input the un-sort step
    indexes the empty list of embeddings: both [encode] methods raise
    [IndexError] without a call of the model. *)
Theorem encode_batch_size_negative_raises {Emb : Type}
    (argsort : list Z -> list nat)
    (encode_text : list pyval -> bool -> result (list Emb))
    (sentences : list pyval) (keys : list Z) (batch_size : Z)
    (progress_hf progress_clip : option bool)
    (convert_to_numpy convert_to_tensor : bool) (log : list call) :
  Np.argsort_spec argsort ->
  mapM WrappedHuggingfaceTransformer._text_length sentences = Ok keys ->
  truthy progress_clip = false ->
  batch_size < 0 ->
  sentences <> [] ->
  WrappedHuggingfaceTransformer.encode argsort encode_text sentences
    batch_size progress_hf convert_to_numpy convert_to_tensor log
  = (Raise IndexError, log) /\
  WrappedOpenCLIPTransformer.encode argsort encode_text sentences
    batch_size progress_clip convert_to_numpy convert_to_tensor log
  = (Raise IndexError, log).
Proof.
  intros Hspec Hkeys Hprog Hneg Hne.
  rewrite encode_stages_hf, encode_stages_clip, Hprog.
  split; now apply (staged_batch_size_negative argsort _ Hspec _ keys).
Qed.

Lemma encode_batch_size_negative_raises_witness :
  WrappedHuggingfaceTransformer.encode Np.stable_argsort toy_encode_text
    [PStr "hello world"; PStr "hi"] (-8) None true false []
  = (Raise IndexError, []) /\
  WrappedOpenCLIPTransformer.encode Np.stable_argsort toy_encode_text
    [PStr "hello world"; PStr "hi"] (-8) (Some false) true false []
  = (Raise IndexError, []).
Proof.
  apply (encode_batch_size_negative_raises Np.stable_argsort toy_encode_text
           [PStr "hello world"; PStr "hi"] [11; 2] (-8) None (Some false)
           true false []).
  - exact stable_argsort_spec.
  - reflexivity.
  - reflexivity.
  - lia.
  - discriminate.
Defined.

(** ** When the model fails or miscounts *)

Lemma batch_loop_stops {Emb : Type}
    (encode_text : list pyval -> bool -> result (list Emb))
    projection sorted batch_size pre s post rowss e acc log :
  Forall2 (fun s' rows =>
             encode_text (batch_at sorted batch_size s') projection = Ok rows)
          pre rowss ->
  encode_text (batch_at sorted batch_size s) projection = Raise e ->
  batch_loop encode_text projection sorted batch_size (pre ++ s :: post) acc log
  = (Raise e,
     log ++ map (fun s' => (batch_at sorted batch_size s', projection))
                (pre ++ [s])).
Proof.
  intros HF Hs. revert acc log.
  induction HF as [|s' rows tp tr Hrows _ IH]; intros acc log; simpl.
  - rewrite batch_loop_cons, Hs. reflexivity.
  - rewrite batch_loop_cons, Hrows, IH. now rewrite <- app_assoc.
Qed.

Lemma batch_loop_prefix {Emb : Type}
    (encode_text : list pyval -> bool -> result (list Emb))
    projection sorted batch_size starts acc log :
  exists j,
    snd (batch_loop encode_text projection sorted batch_size starts acc log)
    = log ++ map (fun s => (batch_at sorted batch_size s, projection))
                 (firstn j starts).
Proof.
  revert acc log; induction starts as [|s tl IH]; intros acc log.
  - exists 0%nat. simpl. now rewrite app_nil_r.
  - rewrite batch_loop_cons.
    destruct (encode_text (batch_at sorted batch_size s) projection)
      as [rows|e].
    + destruct (IH (acc ++ rows)
                   (log ++ [(batch_at sorted batch_size s, projection)]))
        as (j & Hj).
      exists (S j). rewrite Hj. simpl. now rewrite <- app_assoc.
    + exists 1%nat. reflexivity.
Qed.

(** X6.  No retry and no recovery: when [encode_text] raises on a batch,
    after answering the batches before it, [encode] raises that very
    exception, the call log ends with the failing batch, and no later
    batch is tried. *)
Theorem encode_model_failure_stops {Emb : Type}
    (argsort : list Z -> list nat)
    (encode_text : list pyval -> bool -> result (list Emb))
    (sentences : list pyval) (keys : list Z) (batch_size : Z)
    (show_progress_bar : option bool)
    (convert_to_numpy convert_to_tensor : bool)
    (sorted : list pyval) (pre : list Z) (s : Z) (post : list Z)
    (rowss : list (list Emb)) (e : exn) :
  mapM WrappedHuggingfaceTransformer._text_length sentences = Ok keys ->
  mapM (Py.getitem sentences) (argsort keys) = Ok sorted ->
  Py.range 0 (Z.of_nat (List.length sentences)) batch_size
  = Ok (pre ++ s :: post) ->
  Forall2 (fun s' rows =>
             encode_text (Py.slice sorted s' (s' + batch_size)) false = Ok rows)
          pre rowss ->
  encode_text (Py.slice sorted s (s + batch_size)) false = Raise e ->
  WrappedHuggingfaceTransformer.encode argsort encode_text sentences
    batch_size show_progress_bar convert_to_numpy convert_to_tensor []
  = (Raise e,
     map (fun s' => (Py.slice sorted s' (s' + batch_size), false))
         (pre ++ [s])).
Proof.
  intros Hkeys Hsorted Hrange Hpre Hs.
  rewrite encode_stages_hf. unfold staged, prepare.
  rewrite Hkeys. simpl. rewrite Hsorted. simpl. rewrite Hrange. simpl.
  rewrite (batch_loop_stops encode_text false sorted batch_size pre s post
             rowss e [] [] Hpre Hs).
  reflexivity.
Qed.

(** A model that answers the shortest batch and fails on the next. *)
Lemma encode_model_failure_stops_witness :
  let encode_text := fun (texts : list pyval) (_ : bool) =>
    match texts with
    | [PStr "hello world"] => Raise ModelError
    | _ => Ok (map (toy_row false) texts)
    end in
  WrappedHuggingfaceTransformer.encode Np.stable_argsort encode_text
    [PStr "hello world"; PStr "hi"; PStr "a long sentence"] 1 None true true []
  = (Raise ModelError,
     map (fun s' => (Py.slice [PStr "hi"; PStr "hello world";
                               PStr "a long sentence"] s' (s' + 1), false))
         ([0] ++ [1])).
Proof.
  intros encode_text.
  apply (encode_model_failure_stops Np.stable_argsort encode_text
           [PStr "hello world"; PStr "hi"; PStr "a long sentence"]
           [11; 2; 15] 1 None true true
           [PStr "hi"; PStr "hello world"; PStr "a long sentence"]
           [0] 1 [2] [[2]] ModelError).
  - reflexivity.
  - reflexivity.
  - reflexivity.
  - repeat constructor.
  - reflexivity.
Defined.

Lemma getitems_outcome {A} (l : list A) (idx : list nat) :
  match mapM (Py.getitem l) idx with
  | Ok out => Forall (fun i => (i < List.length l)%nat) idx
  | Raise e => e = IndexError
  end.
Proof.
  induction idx as [|i tl IH]; simpl; [constructor|].
  unfold Py.getitem at 1.
  destruct (nth_error l i) as [x|] eqn:Hi; simpl; [|reflexivity].
  destruct (mapM (Py.getitem l) tl) as [out|e]; simpl; [|assumption].
  constructor; [|assumption].
  apply nth_error_Some. congruence.
Qed.

Section RowCounts.
Context {Emb : Type}.
Variable argsort : list Z -> list nat.
Hypothesis argsort_ok : Np.argsort_spec argsort.
Variables (sentences : list pyval) (keys : list Z).
Hypothesis keys_ok :
  mapM WrappedHuggingfaceTransformer._text_length sentences = Ok keys.

Lemma unsort_too_few (all_embeddings : list Emb) :
  (List.length all_embeddings < List.length sentences)%nat ->
  unsort argsort (argsort keys) all_embeddings = Raise IndexError.
Proof.
  intros Hfew. unfold unsort.
  pose proof (idx_perm argsort argsort_ok sentences keys keys_ok) as Hp.
  destruct (argsort_ok (map Z.of_nat (argsort keys))) as [Hq _].
  rewrite length_map, (Permutation_length Hp), length_seq in Hq.
  pose proof (getitems_outcome all_embeddings
                (argsort (map Z.of_nat (argsort keys)))) as Hout.
  destruct (mapM (Py.getitem all_embeddings)
              (argsort (map Z.of_nat (argsort keys)))) as [out|e];
    [|now subst].
  exfalso. rewrite Forall_forall in Hout.
  assert (Hin : In (List.length all_embeddings)
                   (argsort (map Z.of_nat (argsort keys)))).
  { eapply Permutation_in; [apply Permutation_sym, Hq|].
    apply in_seq. lia. }
  apply Hout in Hin. lia.
Qed.

(** With at least as many rows as sentences the un-sort step succeeds
    and keeps the first rows only. *)
Lemma unsort_surplus (all_embeddings : list Emb) :
  (List.length sentences <= List.length all_embeddings)%nat ->
  exists out,
    unsort argsort (argsort keys) all_embeddings = Ok out /\
    List.length out = List.length sentences /\
    forall k i, nth_error (argsort keys) k = Some i ->
                nth_error out i = nth_error all_embeddings k.
Proof.
  intros Hmany.
  destruct (unsort_aligned argsort argsort_ok sentences keys keys_ok
              (firstn (List.length sentences) all_embeddings))
    as (out & Hout & Hlen & Hal).
  { rewrite length_firstn. lia. }
  exists out.
  assert (Hidx : Forall (fun j => (j < List.length sentences)%nat)
                        (argsort (map Z.of_nat (argsort keys)))).
  { pose proof (idx_perm argsort argsort_ok sentences keys keys_ok) as Hp.
    destruct (argsort_ok (map Z.of_nat (argsort keys))) as [Hq _].
    rewrite length_map, (Permutation_length Hp), length_seq in Hq.
    now apply perm_seq_bound. }
  split; [|split; [assumption|]].
  - unfold unsort in *. rewrite <- Hout.
    clear Hout Hal Hlen.
    induction Hidx as [|j tl Hj _ IH]; simpl; [reflexivity|].
    rewrite IH. unfold Py.getitem.
    now rewrite nth_error_firstn, (proj2 (Nat.ltb_lt _ _) Hj).
  - intros k i Hk. rewrite (Hal k i Hk).
    rewrite nth_error_firstn.
    assert (Hkn : (k < List.length sentences)%nat).
    { pose proof (idx_perm argsort argsort_ok sentences keys keys_ok) as Hp.
      assert (Hk' : (k < List.length (argsort keys))%nat)
        by (apply nth_error_Some; congruence).
      now rewrite (Permutation_length Hp), length_seq in Hk'. }
    now rewrite (proj2 (Nat.ltb_lt _ _) Hkn).
Qed.

End RowCounts.

Lemma batch_loop_all {Emb : Type}
    (encode_text : list pyval -> bool -> result (list Emb))
    projection sorted batch_size starts rowss acc log :
  Forall2 (fun s rows =>
             encode_text (batch_at sorted batch_size s) projection = Ok rows)
          starts rowss ->
  batch_loop encode_text projection sorted batch_size starts acc log
  = (Ok (acc ++ List.concat rowss),
     log ++ map (fun s => (batch_at sorted batch_size s, projection)) starts).
Proof.
  intros HF. revert acc log.
  induction HF as [|s rows ts tr Hrows _ IH]; intros acc log; simpl.
  - unfold batch_loop. simpl. unfold ret. now rewrite !app_nil_r.
  - rewrite batch_loop_cons, Hrows, IH. now rewrite <- !app_assoc.
Qed.

(** X7.  [encode] does not compare the number of rows with the number of
    texts.  When the model returns fewer rows in all than there are
    sentences, every batch is encoded and the un-sort step then raises
    [IndexError]. *)
Theorem encode_too_few_rows {Emb : Type}
    (argsort : list Z -> list nat)
    (encode_text : list pyval -> bool -> result (list Emb))
    (sentences : list pyval) (keys : list Z) (batch_size : Z)
    (show_progress_bar : option bool)
    (convert_to_numpy convert_to_tensor : bool)
    (sorted : list pyval) (starts : list Z) (rowss : list (list Emb)) :
  Np.argsort_spec argsort ->
  mapM WrappedHuggingfaceTransformer._text_length sentences = Ok keys ->
  mapM (Py.getitem sentences) (argsort keys) = Ok sorted ->
  Py.range 0 (Z.of_nat (List.length sentences)) batch_size = Ok starts ->
  Forall2 (fun s rows =>
             encode_text (Py.slice sorted s (s + batch_size)) false = Ok rows)
          starts rowss ->
  (List.length (List.concat rowss) < List.length sentences)%nat ->
  WrappedHuggingfaceTransformer.encode argsort encode_text sentences
    batch_size show_progress_bar convert_to_numpy convert_to_tensor []
  = (Raise IndexError,
     map (fun s => (Py.slice sorted s (s + batch_size), false)) starts).
Proof.
  intros Hspec Hkeys Hsorted Hrange HF Hfew.
  rewrite encode_stages_hf. unfold staged, prepare.
  rewrite Hkeys. simpl. rewrite Hsorted. simpl. rewrite Hrange. simpl.
  rewrite (batch_loop_all encode_text false sorted batch_size starts rowss
             [] [] HF).
  simpl.
  rewrite (unsort_too_few argsort Hspec sentences keys Hkeys _ Hfew).
  reflexivity.
Qed.

(** A model that returns one row per batch, whatever the batch holds. *)
Lemma encode_too_few_rows_witness :
  let encode_text := fun (texts : list pyval) (_ : bool) =>
    Ok [Z.of_nat (List.length texts)] in
  WrappedHuggingfaceTransformer.encode Np.stable_argsort encode_text
    [PStr "hello world"; PStr "hi"; PStr "a long sentence"] 2 None true true []
  = (Raise IndexError,
     map (fun s => (Py.slice [PStr "hi"; PStr "hello world";
                              PStr "a long sentence"] s (s + 2), false))
         [0; 2]).
Proof.
  intros encode_text.
  apply (encode_too_few_rows Np.stable_argsort encode_text
           [PStr "hello world"; PStr "hi"; PStr "a long sentence"]
           [11; 2; 15] 2 None true true
           [PStr "hi"; PStr "hello world"; PStr "a long sentence"]
           [0; 2] [[2]; [1]]).
  - exact stable_argsort_spec.
  - reflexivity.
  - reflexivity.
  - reflexivity.
  - repeat constructor.
  - simpl. lia.
Defined.

(** X8.  When the model returns more rows in all than there are sentences,
    [encode] raises nothing: it converts as many rows as there are
    sentences, the row at position [k] of the accumulated list going to
    the input position of the [k]-th sorted sentence, and drops the
    rows beyond. *)
Theorem encode_surplus_rows {Emb : Type}
    (argsort : list Z -> list nat)
    (encode_text : list pyval -> bool -> result (list Emb))
    (sentences : list pyval) (keys : list Z) (batch_size : Z)
    (show_progress_bar : option bool)
    (convert_to_numpy convert_to_tensor : bool)
    (sorted : list pyval) (starts : list Z) (rowss : list (list Emb)) :
  Np.argsort_spec argsort ->
  mapM WrappedHuggingfaceTransformer._text_length sentences = Ok keys ->
  mapM (Py.getitem sentences) (argsort keys) = Ok sorted ->
  Py.range 0 (Z.of_nat (List.length sentences)) batch_size = Ok starts ->
  Forall2 (fun s rows =>
             encode_text (Py.slice sorted s (s + batch_size)) false = Ok rows)
          starts rowss ->
  (List.length sentences <= List.length (List.concat rowss))%nat ->
  exists out,
    WrappedHuggingfaceTransformer.encode argsort encode_text sentences
      batch_size show_progress_bar convert_to_numpy convert_to_tensor []
    = (convert convert_to_tensor convert_to_numpy out,
       map (fun s => (Py.slice sorted s (s + batch_size), false)) starts) /\
    List.length out = List.length sentences /\
    forall k i, nth_error (argsort keys) k = Some i ->
                nth_error out i = nth_error (List.concat rowss) k.
Proof.
  intros Hspec Hkeys Hsorted Hrange HF Hmany.
  destruct (unsort_surplus argsort Hspec sentences keys Hkeys _ Hmany)
    as (out & Hout & Hlen & Hal).
  exists out. split; [|split; assumption].
  rewrite encode_stages_hf. unfold staged, prepare.
  rewrite Hkeys. simpl. rewrite Hsorted. simpl. rewrite Hrange. simpl.
  rewrite (batch_loop_all encode_text false sorted batch_size starts rowss
             [] [] HF).
  simpl. rewrite Hout. reflexivity.
Qed.

(** A model that returns one row more than the batch has texts: the row
    of "hello world" (11) is lost and a stray row (-7) is returned. *)
Lemma encode_surplus_rows_witness :
  let encode_text := fun (texts : list pyval) (_ : bool) =>
    Ok (-7 :: map (toy_row false) texts) in
  exists out,
    WrappedHuggingfaceTransformer.encode Np.stable_argsort encode_text
      [PStr "hello world"; PStr "hi"] 2 None true true []
    = (convert true true out,
       map (fun s => (Py.slice [PStr "hi"; PStr "hello world"] s (s + 2),
                      false)) [0]) /\
    List.length out = 2%nat /\
    forall k i, nth_error (Np.stable_argsort [11; 2]) k = Some i ->
                nth_error out i = nth_error (List.concat [[-7; 2; 11]]) k.
Proof.
  intros encode_text.
  apply (encode_surplus_rows Np.stable_argsort encode_text
           [PStr "hello world"; PStr "hi"] [11; 2] 2 None true true
           [PStr "hi"; PStr "hello world"] [0] [[-7; 2; 11]]).
  - exact stable_argsort_spec.
  - reflexivity.
  - reflexivity.
  - reflexivity.
  - repeat constructor.
  - simpl. lia.
Defined.

Example encode_surplus_rows_example :
  WrappedHuggingfaceTransformer.encode Np.stable_argsort
    (fun texts _ => Ok (-7 :: map (toy_row false) texts))
    [PStr "hello world"; PStr "hi"] 2 None true true []
  = (Ok (Tensor [2; -7]), [([PStr "hi"; PStr "hello world"], false)]).
Proof. reflexivity. Qed.

(** ** What the model is called with *)

Lemma range_negative_step (n : nat) (step : Z) :
  step < 0 -> Py.range 0 (Z.of_nat n) step = Ok [].
Proof.
  intros Hneg. unfold Py.range, Py.range_length.
  replace (step =? 0) with false by (symmetry; apply Z.eqb_neq; lia).
  replace (0 <? step) with false by (symmetry; apply Z.ltb_ge; lia).
  replace (Z.of_nat n <? 0) with false by (symmetry; apply Z.ltb_ge; lia).
  reflexivity.
Qed.

Lemma Forall_firstn_of {A} (P : A -> Prop) (j : nat) (l : list A) :
  Forall P l -> Forall P (firstn j l).
Proof.
  intros H. rewrite <- (firstn_skipn j l) in H.
  now apply Forall_app in H.
Qed.

(** X9.  Whatever the batch size, the flags and the behaviour of the model,
    every call [encode] makes passes [projection=False] and a batch
    that is not empty, has at most [batch_size] texts and holds input
    sentences only; with a batch size of zero or below there is no call
    at all. *)
Theorem encode_calls_shape {Emb : Type}
    (argsort : list Z -> list nat)
    (encode_text : list pyval -> bool -> result (list Emb))
    (sentences : list pyval) (batch_size : Z)
    (show_progress_bar : option bool)
    (convert_to_numpy convert_to_tensor : bool) :
  Np.argsort_spec argsort ->
  let calls :=
    snd (WrappedHuggingfaceTransformer.encode argsort encode_text sentences
           batch_size show_progress_bar convert_to_numpy convert_to_tensor [])
  in
  Forall (fun c =>
            1 <= Z.of_nat (List.length (fst c)) <= batch_size /\
            snd c = false /\
            forall x, In x (fst c) -> In x sentences) calls /\
  (batch_size <= 0 -> calls = []).
Proof.
  intros Hspec calls. subst calls.
  rewrite encode_stages_hf. unfold staged.
  destruct (mapM WrappedHuggingfaceTransformer._text_length sentences)
    as [keys|e] eqn:Hkeys.
  2:{ unfold prepare. rewrite Hkeys. simpl. split; [constructor|reflexivity]. }
  destruct (prepare_any_batch_size argsort Hspec sentences keys Hkeys batch_size)
    as (sorted & Hsorted & Hprep).
  rewrite Hprep.
  destruct (Z.lt_trichotomy batch_size 0) as [Hneg|[Hzero|Hpos]].
  - rewrite range_negative_step by assumption. simpl.
    split; [constructor|reflexivity].
  - subst batch_size. simpl. split; [constructor|reflexivity].
  - destruct (prepare_run argsort Hspec sentences keys batch_size Hkeys Hpos
                sorted Hsorted)
      as (starts & Hrange & _ & Hcat & Hsize & _).
    rewrite Hrange. cbn [bind_result].
    destruct (batch_loop_prefix encode_text false sorted batch_size starts [] [])
      as (j & Hj).
    destruct (sorted_facts argsort Hspec sentences keys Hkeys sorted Hsorted)
      as (_ & Hperm & _).
    assert (Hcalls :
              snd (let (r, log') :=
                     batch_loop encode_text false sorted batch_size starts [] []
                   in match r with
                      | Ok all_embeddings =>
                          (bind_result (unsort argsort (argsort keys) all_embeddings)
                             (convert convert_to_tensor convert_to_numpy), log')
                      | Raise e => (Raise e, log')
                      end)
              = map (fun s => (batch_at sorted batch_size s, false))
                    (firstn j starts)).
    { destruct (batch_loop encode_text false sorted batch_size starts [] [])
        as [[all|e] log']; simpl in *; exact Hj. }
    rewrite Hcalls. split; [|lia].
    apply Forall_map. apply Forall_firstn_of.
    apply Forall_forall. intros s Hs. simpl.
    rewrite Forall_map, Forall_forall in Hsize.
    split; [now apply Hsize|]. split; [reflexivity|].
    intros x Hx. apply (Permutation_in _ Hperm).
    rewrite <- Hcat. apply in_concat.
    exists (batch_at sorted batch_size s). split; [|assumption].
    now apply in_map.
Qed.

Lemma encode_calls_shape_witness :
  let calls :=
    snd (WrappedHuggingfaceTransformer.encode Np.reversing_argsort
           (fun texts _ =>
              match texts with
              | [_] => Raise ModelError
              | _ => toy_encode_text texts false
              end)
           [PStr "hello world"; PStr "hi"; PStr "yo"] 2 None true true [])
  in
  Forall (fun c =>
            1 <= Z.of_nat (List.length (fst c)) <= 2 /\
            snd c = false /\
            forall x, In x (fst c) ->
                      In x [PStr "hello world"; PStr "hi"; PStr "yo"]) calls /\
  (2 <= 0 -> calls = []).
Proof.
  apply (encode_calls_shape Np.reversing_argsort
           (fun texts _ =>
              match texts with
              | [_] => Raise ModelError
              | _ => toy_encode_text texts false
              end)
           [PStr "hello world"; PStr "hi"; PStr "yo"] 2 None true true).
  exact reversing_argsort_spec.
Defined.

(** ** The sizes and the order of the batches *)

(** X10.  Every batch but the last is full: it has exactly [batch_size]
    texts; the last one has what is left, [n - j * batch_size] texts
    when it is batch number [j]. *)
Theorem encode_full_batches {Emb : Type}
    (argsort : list Z -> list nat)
    (encode_text : list pyval -> bool -> result (list Emb))
    (sentences : list pyval) (keys : list Z) (batch_size : Z)
    (show_progress_bar : option bool)
    (convert_to_numpy convert_to_tensor : bool) :
  Np.argsort_spec argsort ->
  mapM WrappedHuggingfaceTransformer._text_length sentences = Ok keys ->
  0 < batch_size ->
  (forall batch, exists rows, encode_text batch false = Ok rows) ->
  exists batches,
    snd (WrappedHuggingfaceTransformer.encode argsort encode_text sentences
           batch_size show_progress_bar convert_to_numpy convert_to_tensor [])
    = map (fun batch => (batch, false)) batches /\
    forall j batch, nth_error batches j = Some batch ->
      ((S j < List.length batches)%nat ->
       Z.of_nat (List.length batch) = batch_size) /\
      (S j = List.length batches ->
       Z.of_nat (List.length batch)
       = Z.of_nat (List.length sentences) - Z.of_nat j * batch_size).
Proof.
  intros Hspec Hkeys Hbs Htotal.
  destruct (staged_run argsort encode_text false Hspec sentences keys
              batch_size Hkeys Hbs convert_to_numpy convert_to_tensor [] Htotal)
    as (sorted & starts & rowss & Hsorted & Hrange & _ & Hrun).
  destruct (sorted_facts argsort Hspec sentences keys Hkeys sorted Hsorted)
    as (Hlen & _).
  rewrite range_starts in Hrange by assumption.
  injection Hrange as Hstarts.
  destruct (chunk_count (List.length sentences) batch_size Hbs)
    as (Hup & Hlow & _).
  set (m := Z.to_nat (Py.range_length 0 (Z.of_nat (List.length sentences))
                                      batch_size)) in *.
  exists (map (batch_at sorted batch_size) starts). split.
  - rewrite encode_stages_hf, Hrun. simpl. now rewrite map_map.
  - intros j batch Hj.
    rewrite <- Hstarts, map_map, length_map, length_seq in *.
    rewrite nth_error_map, nth_error_seq in Hj.
    destruct (j <? m)%nat eqn:Hjm; [|discriminate].
    apply Nat.ltb_lt in Hjm. simpl in Hj. injection Hj as <-.
    unfold batch_at. rewrite slice_chunk by (try assumption; rewrite Hlen; now apply Hlow).
    rewrite length_firstn, length_skipn, Hlen.
    assert (Hb : Z.of_nat (Z.to_nat batch_size) = batch_size)
      by (apply Z2Nat.id; lia).
    split; intros Hcase.
    + pose proof (Hlow (S j) Hcase) as Hnext. simpl in Hnext. lia.
    + subst m. rewrite <- Hcase in Hup. simpl in Hup.
      pose proof (Hlow j Hjm) as Hthis.
      assert (Hmul : Z.of_nat (j * Z.to_nat batch_size)
                     = Z.of_nat j * batch_size)
        by (rewrite Nat2Z.inj_mul, Hb; reflexivity).
      lia.
Qed.

Lemma encode_full_batches_witness :
  exists batches,
    snd (WrappedHuggingfaceTransformer.encode Np.stable_argsort
           toy_encode_text
           [PStr "hello world"; PStr "hi"; PStr "yo"; PStr "a"; PStr "abc"]
           2 None true true [])
    = map (fun batch => (batch, false)) batches /\
    forall j batch, nth_error batches j = Some batch ->
      ((S j < List.length batches)%nat ->
       Z.of_nat (List.length batch) = 2) /\
      (S j = List.length batches ->
       Z.of_nat (List.length batch)
       = Z.of_nat (List.length [PStr "hello world"; PStr "hi"; PStr "yo";
                                PStr "a"; PStr "abc"]) - Z.of_nat j * 2).
Proof.
  apply (encode_full_batches Np.stable_argsort toy_encode_text
           [PStr "hello world"; PStr "hi"; PStr "yo"; PStr "a"; PStr "abc"]
           [11; 2; 2; 1; 3] 2 None true true).
  - exact stable_argsort_spec.
  - reflexivity.
  - lia.
  - intros batch. eexists. reflexivity.
Defined.

Lemma sorted_app_le (l1 l2 : list Z) :
  StronglySorted Z.le (l1 ++ l2) ->
  forall a b, In a l1 -> In b l2 -> a <= b.
Proof.
  induction l1 as [|x tl IH]; intros Hs a b Ha Hb; [contradiction|].
  simpl in Hs. inversion Hs as [|? ? Htl Hall]; subst.
  destruct Ha as [->|Ha].
  - rewrite Forall_forall in Hall. apply Hall. apply in_or_app. now right.
  - now apply IH.
Qed.

Lemma Forall2_in_l {A B} (R : A -> B -> Prop) l l' x :
  Forall2 R l l' -> In x l -> exists y, In y l' /\ R x y.
Proof.
  induction 1 as [|a b ta tb Hab _ IH]; intros Hin; [contradiction|].
  destruct Hin as [->|Hin].
  - exists b. split; [now left|assumption].
  - destruct (IH Hin) as (y & Hy & Hxy). exists y. split; [now right|assumption].
Qed.

(** X11.  The purpose of the sort: no text of an earlier batch has a greater
    estimated length than a text of a later batch, so the longest text
    of a batch is never longer than the shortest of the next. *)
Theorem encode_batches_by_length {Emb : Type}
    (argsort : list Z -> list nat)
    (encode_text : list pyval -> bool -> result (list Emb))
    (sentences : list pyval) (keys : list Z) (batch_size : Z)
    (show_progress_bar : option bool)
    (convert_to_numpy convert_to_tensor : bool) :
  Np.argsort_spec argsort ->
  mapM WrappedHuggingfaceTransformer._text_length sentences = Ok keys ->
  0 < batch_size ->
  (forall batch, exists rows, encode_text batch false = Ok rows) ->
  exists batches,
    snd (WrappedHuggingfaceTransformer.encode argsort encode_text sentences
           batch_size show_progress_bar convert_to_numpy convert_to_tensor [])
    = map (fun batch => (batch, false)) batches /\
    forall i j earlier later x y a b,
      (i < j)%nat ->
      nth_error batches i = Some earlier ->
      nth_error batches j = Some later ->
      In x earlier -> In y later ->
      WrappedHuggingfaceTransformer._text_length x = Ok a ->
      WrappedHuggingfaceTransformer._text_length y = Ok b ->
      a <= b.
Proof.
  intros Hspec Hkeys Hbs Htotal.
  destruct (logged_batches argsort encode_text sentences keys batch_size
              show_progress_bar convert_to_numpy convert_to_tensor
              Hspec Hkeys Hbs Htotal)
    as (sorted & batches & Hsorted & Hlog & Hcat & _).
  exists batches. split; [assumption|].
  intros i j earlier later x y a b Hij Hi Hj Hx Hy Ha Hb.
  destruct (sorted_facts argsort Hspec sentences keys Hkeys sorted Hsorted)
    as (_ & _ & Hlens & _).
  destruct (Hspec keys) as [_ Hasc].
  apply mapM_ok_iff in Hlens.
  destruct (nth_error_split _ _ Hi) as (l1 & l2 & Hsplit & Hl1).
  assert (Hlater : In later l2).
  { subst batches. rewrite nth_error_app2 in Hj by lia.
    replace (j - List.length l1)%nat with (S (j - List.length l1 - 1)) in Hj
      by lia.
    simpl in Hj. now apply nth_error_In in Hj. }
  assert (Hdec : sorted = (List.concat l1 ++ earlier) ++ List.concat l2).
  { rewrite <- Hcat, Hsplit, concat_app. simpl. now rewrite app_assoc. }
  rewrite Hdec in Hlens.
  apply Forall2_app_inv_l in Hlens as (lens1 & lens2 & H1 & H2 & Heq).
  rewrite Heq in Hasc.
  destruct (Forall2_in_l _ _ _ x H1) as (a' & Ha' & Hxa');
    [apply in_or_app; now right|].
  destruct (Forall2_in_l _ _ _ y H2) as (b' & Hb' & Hyb').
  { apply in_concat. exists later. auto. }
  assert (a' = a) by congruence. assert (b' = b) by congruence. subst.
  now apply (sorted_app_le lens1 lens2).
Qed.

Lemma encode_batches_by_length_witness :
  exists batches,
    snd (WrappedHuggingfaceTransformer.encode Np.reversing_argsort
           toy_encode_text
           [PStr "hello world"; PStr "hi"; PStr "yo"; PStr "a"; PStr "abc"]
           2 None true true [])
    = map (fun batch => (batch, false)) batches /\
    forall i j earlier later x y a b,
      (i < j)%nat ->
      nth_error batches i = Some earlier ->
      nth_error batches j = Some later ->
      In x earlier -> In y later ->
      WrappedHuggingfaceTransformer._text_length x = Ok a ->
      WrappedHuggingfaceTransformer._text_length y = Ok b ->
      a <= b.
Proof.
  apply (encode_batches_by_length Np.reversing_argsort toy_encode_text
           [PStr "hello world"; PStr "hi"; PStr "yo"; PStr "a"; PStr "abc"]
           [11; 2; 2; 1; 3] 2 None true true).
  - exact reversing_argsort_spec.
  - reflexivity.
  - lia.
  - intros batch. eexists. reflexivity.
Defined.

(** X12.  For a model that embeds each text on its own, neither the batch
    size nor the way [np.argsort] orders texts of equal length shows in
    the result: any two sorting [argsort]s and any two positive batch
    sizes give the same outcome, in both wrappers. *)
Theorem encode_result_independent_of_batching {Emb : Type}
    (argsort1 argsort2 : list Z -> list nat)
    (encode_text : list pyval -> bool -> result (list Emb))
    (f g : pyval -> Emb)
    (sentences : list pyval) (keys : list Z) (batch_size1 batch_size2 : Z)
    (progress1 progress2 : option bool)
    (convert_to_numpy convert_to_tensor : bool) (log1 log2 : list call) :
  Np.argsort_spec argsort1 ->
  Np.argsort_spec argsort2 ->
  mapM WrappedHuggingfaceTransformer._text_length sentences = Ok keys ->
  0 < batch_size1 ->
  0 < batch_size2 ->
  truthy progress1 = false ->
  truthy progress2 = false ->
  (forall batch, encode_text batch false = Ok (map f batch)) ->
  (forall batch, encode_text batch true = Ok (map g batch)) ->
  fst (WrappedHuggingfaceTransformer.encode argsort1 encode_text sentences
         batch_size1 progress1 convert_to_numpy convert_to_tensor log1)
  = fst (WrappedHuggingfaceTransformer.encode argsort2 encode_text sentences
           batch_size2 progress2 convert_to_numpy convert_to_tensor log2) /\
  fst (WrappedOpenCLIPTransformer.encode argsort1 encode_text sentences
         batch_size1 progress1 convert_to_numpy convert_to_tensor log1)
  = fst (WrappedOpenCLIPTransformer.encode argsort2 encode_text sentences
           batch_size2 progress2 convert_to_numpy convert_to_tensor log2).
Proof.
  intros H1 H2 Hkeys Hb1 Hb2 Hp1 Hp2 Hf Hg.
  rewrite !encode_stages_hf, !encode_stages_clip, Hp1, Hp2.
  rewrite (staged_rowwise argsort1 encode_text false H1 sentences keys
             batch_size1 Hkeys Hb1 f _ _ log1 Hf).
  rewrite (staged_rowwise argsort2 encode_text false H2 sentences keys
             batch_size2 Hkeys Hb2 f _ _ log2 Hf).
  rewrite (staged_rowwise argsort1 encode_text true H1 sentences keys
             batch_size1 Hkeys Hb1 g _ _ log1 Hg).
  rewrite (staged_rowwise argsort2 encode_text true H2 sentences keys
             batch_size2 Hkeys Hb2 g _ _ log2 Hg).
  split; reflexivity.
Qed.

Lemma encode_result_independent_of_batching_witness :
  fst (WrappedHuggingfaceTransformer.encode Np.stable_argsort toy_encode_text
         [PStr "hello world"; PStr "hi"; PStr "yo"] 1 None true true [])
  = fst (WrappedHuggingfaceTransformer.encode Np.reversing_argsort
           toy_encode_text
           [PStr "hello world"; PStr "hi"; PStr "yo"] 32 (Some false)
           true true []) /\
  fst (WrappedOpenCLIPTransformer.encode Np.stable_argsort toy_encode_text
         [PStr "hello world"; PStr "hi"; PStr "yo"] 1 None true true [])
  = fst (WrappedOpenCLIPTransformer.encode Np.reversing_argsort
           toy_encode_text
           [PStr "hello world"; PStr "hi"; PStr "yo"] 32 (Some false)
           true true []).
Proof.
  apply (encode_result_independent_of_batching
           Np.stable_argsort Np.reversing_argsort toy_encode_text
           (toy_row false) (toy_row true)
           [PStr "hello world"; PStr "hi"; PStr "yo"] [11; 2; 2] 1 32
           None (Some false) true true [] []).
  - exact stable_argsort_spec.
  - exact reversing_argsort_spec.
  - reflexivity.
  - lia.
  - lia.
  - reflexivity.
  - reflexivity.
  - intros batch. reflexivity.
  - intros batch. reflexivity.
Defined.

(** ** Which names the dispatch accepts *)

Lemma distinct_names_NoDup (l : list string) :
  distinct_names l = true -> NoDup l.
Proof.
  induction l as [|x tl IH]; simpl; intros H; constructor.
  - apply andb_prop in H as [H _].
    apply negb_true_iff, str_in_false in H. exact H.
  - apply andb_prop in H as [_ H]. now apply IH.
Qed.

(** X13.  Read backwards: an adapter comes out only for a name of the list
    that belongs to it and carries that name unchanged; the only
    exception is the [TypeError], for a name in none of the lists.  The
    34 known names are all different. *)
Theorem dispatch_inversion (model_name : string) :
  match dispatch model_name with
  | Ok (WrappedHuggingfaceTransformer_ name) =>
      name = model_name /\ In model_name huggingface_transformers
  | Ok (SentenceTransformer_ name) =>
      name = model_name /\ In model_name sentence_transformers
  | Ok (WrappedOpenCLIPTransformer_ name) =>
      name = model_name /\ In model_name open_clip_transformers
  | Raise e => e = TypeError /\ ~ In model_name known_models
  end /\
  NoDup known_models /\
  List.length known_models = 34%nat.
Proof.
  split; [|split; [apply distinct_names_NoDup|]; reflexivity].
  unfold dispatch.
  destruct (str_in model_name huggingface_transformers) eqn:H1.
  { split; [reflexivity|now apply str_in_iff]. }
  destruct (str_in model_name sentence_transformers) eqn:H2.
  { split; [reflexivity|now apply str_in_iff]. }
  destruct (str_in model_name open_clip_transformers) eqn:H3.
  { split; [reflexivity|now apply str_in_iff]. }
  split; [reflexivity|].
  apply str_in_false in H1, H2, H3.
  unfold known_models. rewrite !in_app_iff. tauto.
Qed.

(** ** The path of the results file *)

Lemma append_length (a b : string) :
  String.length (a ++ b) = (String.length a + String.length b)%nat.
Proof. induction a as [|c tl IH]; simpl; congruence. Qed.

Lemma append_cancel_r (a b s : string) :
  (a ++ s)%string = (b ++ s)%string -> a = b.
Proof.
  revert b; induction a as [|c tl IH]; intros [|d tb] H; simpl in H.
  - reflexivity.
  - apply (f_equal String.length) in H. simpl in H.
    rewrite append_length in H. lia.
  - apply (f_equal String.length) in H. simpl in H.
    rewrite append_length in H. lia.
  - injection H as Hc H. subst d. f_equal. now apply IH.
Qed.

Lemma results_path_iff {Score : Type} (m1 m2 : string) (r1 r2 : dict Score) :
  path (write_results m1 r1) = path (write_results m2 r2) <->
  replace "/" "-" m1 = replace "/" "-" m2.
Proof.
  unfold write_results, to_csv. cbn [path]. split.
  - intros H. simpl in H.
    repeat (injection H as H). now apply append_cancel_r in H.
  - intros ->. reflexivity.
Qed.

Lemma replace_dash_free_inj (m1 m2 : string) :
  (forall i, String.get i m1 <> Some "-"%char) ->
  (forall i, String.get i m2 <> Some "-"%char) ->
  replace "/" "-" m1 = replace "/" "-" m2 -> m1 = m2.
Proof.
  revert m2; induction m1 as [|c1 t1 IH]; intros [|c2 t2] H1 H2 H;
    simpl in H; try discriminate; [reflexivity|].
  injection H as Hc Ht.
  assert (Hc1 : c1 <> "-"%char) by (intros ->; now apply (H1 0%nat)).
  assert (Hc2 : c2 <> "-"%char) by (intros ->; now apply (H2 0%nat)).
  f_equal.
  - destruct (Ascii.eqb c1 "/") eqn:E1, (Ascii.eqb c2 "/") eqn:E2.
    + apply Ascii.eqb_eq in E1, E2. congruence.
    + congruence.
    + congruence.
    + assumption.
  - apply IH; [intros i; apply (H1 (S i))|intros i; apply (H2 (S i))|exact Ht].
Qed.

Lemma NoDup_map_injective {A B} (f : A -> B) (l : list A) (x y : A) :
  NoDup (map f l) -> In x l -> In y l -> f x = f y -> x = y.
Proof.
  induction l as [|a tl IH]; intros Hnd Hx Hy Hxy; [contradiction|].
  simpl in Hnd. inversion Hnd as [|? ? Hnot Htl]; subst.
  destruct Hx as [->|Hx], Hy as [->|Hy].
  - reflexivity.
  - exfalso. apply Hnot. rewrite Hxy. now apply in_map.
  - exfalso. apply Hnot. rewrite <- Hxy. now apply in_map.
  - now apply IH.
Qed.

(** X14.  Two model names get the same results file exactly when they agree
    after every ['/'] is turned into ['-'].  Names without ['-'] never
    collide; a name with ['/'] and the same name with ['-'] in its place
    do, and the later run overwrites the file of the earlier one. *)
Theorem results_path_collisions {Score : Type} (m1 m2 : string)
    (r1 r2 : dict Score) :
  (path (write_results m1 r1) = path (write_results m2 r2) <->
   replace "/" "-" m1 = replace "/" "-" m2) /\
  ((forall i, String.get i m1 <> Some "-"%char) ->
   (forall i, String.get i m2 <> Some "-"%char) ->
   path (write_results m1 r1) = path (write_results m2 r2) -> m1 = m2) /\
  path (write_results ("facebook/" ++ m1) r1)
  = path (write_results ("facebook-" ++ m1) r2).
Proof.
  split; [apply results_path_iff|]. split.
  - intros H1 H2 H. apply results_path_iff in H.
    now apply replace_dash_free_inj.
  - apply results_path_iff. reflexivity.
Qed.

(** X15.  The models the script knows do not overwrite one another: two
    different names of the three lists give two different paths. *)
Theorem results_path_distinct_for_known_models {Score : Type}
    (m1 m2 : string) (r1 r2 : dict Score) :
  In m1 known_models ->
  In m2 known_models ->
  path (write_results m1 r1) = path (write_results m2 r2) ->
  m1 = m2.
Proof.
  intros H1 H2 H. apply results_path_iff in H.
  apply (NoDup_map_injective (replace "/" "-") known_models); try assumption.
  apply distinct_names_NoDup. reflexivity.
Qed.

Lemma results_path_distinct_for_known_models_witness :
  "facebook/contriever" = "facebook/contriever".
Proof.
  apply (results_path_distinct_for_known_models (Score := Z)
           "facebook/contriever" "facebook/contriever"
           [("sts12", Num 75)] []).
  - unfold known_models, huggingface_transformers. simpl. tauto.
  - unfold known_models, huggingface_transformers. simpl. tauto.
  - reflexivity.
Defined.

(** ** The model column *)

Lemma setitem_present {Score : Type} (d : dict Score) (k : string)
    (v : cell Score) :
  NoDup (map fst d) -> In k (map fst d) ->
  setitem d k v
  = map (fun kv => if String.eqb (fst kv) k then (k, v) else kv) d.
Proof.
  induction d as [|[k' v'] tl IH]; simpl; intros Hnd Hin; [contradiction|].
  inversion Hnd as [|? ? Hnot Htl]; subst.
  destruct (String.eqb k' k) eqn:Heq.
  - apply String.eqb_eq in Heq. subst k'. f_equal.
    clear IH Hin Hnd Htl. induction tl as [|[k2 v2] tl IH]; [reflexivity|].
    simpl in *. destruct (String.eqb k2 k) eqn:E.
    + apply String.eqb_eq in E. tauto.
    + f_equal. apply IH. tauto.
  - f_equal. apply IH; [assumption|].
    destruct Hin as [->|Hin]; [|assumption].
    rewrite String.eqb_refl in Heq. discriminate.
Qed.

Lemma setitem_NoDup {Score : Type} (d : dict Score) (k : string)
    (v : cell Score) :
  NoDup (map fst d) -> NoDup (map fst (setitem d k v)).
Proof.
  induction d as [|[k' v'] tl IH]; simpl; intros Hnd.
  - repeat constructor. intros [].
  - inversion Hnd as [|? ? Hnot Htl]; subst.
    destruct (String.eqb k' k) eqn:Heq; simpl.
    + apply String.eqb_eq in Heq. subst k'. now constructor.
    + constructor; [|now apply IH].
      rewrite setitem_keys. intros [Hin | ->]; [contradiction|].
      rewrite String.eqb_refl in Heq. discriminate.
Qed.

(** X16.  The table never has two columns of the same name.  When the
    evaluator returns a metric that is itself called ["model"], the
    script overwrites it: the columns stay as the evaluator gave them,
    every other cell keeps its value, and the cell of that metric holds
    the model name. *)
Theorem results_model_column_overwrites {Score : Type} (model_name : string)
    (results : dict Score) :
  NoDup (map fst results) ->
  let file := write_results model_name results in
  NoDup (header file) /\
  (In "model" (map fst results) ->
   header file = map fst results /\
   lines file
   = [map (fun kv => if String.eqb (fst kv) "model"
                     then Str model_name else snd kv) results]) /\
  (~ In "model" (map fst results) ->
   List.length (header file) = S (List.length results)).
Proof.
  intros Hnd file. subst file.
  unfold write_results, to_csv, DataFrame_of. cbn [header lines columns data].
  split; [now apply setitem_NoDup|]. split.
  - intros Hin. rewrite (setitem_present results "model" _ Hnd Hin).
    rewrite !map_map. simpl. split.
    + apply map_ext. intros [k v]. simpl.
      destruct (String.eqb k "model") eqn:E; [|reflexivity].
      apply String.eqb_eq in E. now subst.
    + f_equal. apply map_ext. intros [k v]. simpl.
      now destruct (String.eqb k "model").
  - intros Hfresh. rewrite setitem_fresh by assumption.
    rewrite map_app, length_app, length_map. simpl. lia.
Qed.

Lemma results_model_column_overwrites_witness :
  let file :=
    write_results (Score := Z) "roberta-base"
      [("sts12", Num 75); ("model", Num 1); ("stsb", Num 86)] in
  NoDup (header file) /\
  (In "model" (map fst [("sts12", Num 75); ("model", Num 1); ("stsb", @Num Z 86)]) ->
   header file
   = map fst [("sts12", Num 75); ("model", Num 1); ("stsb", @Num Z 86)] /\
   lines file
   = [map (fun kv => if String.eqb (fst kv) "model"
                     then Str "roberta-base" else snd kv)
          [("sts12", Num 75); ("model", Num 1); ("stsb", Num 86)]]) /\
  (~ In "model" (map fst [("sts12", Num 75); ("model", Num 1); ("stsb", @Num Z 86)]) ->
   List.length (header file)
   = S (List.length [("sts12", Num 75); ("model", Num 1); ("stsb", @Num Z 86)])).
Proof.
  apply (results_model_column_overwrites (Score := Z) "roberta-base"
           [("sts12", Num 75); ("model", Num 1); ("stsb", Num 86)]).
  simpl. repeat constructor; simpl; intuition discriminate.
Defined.

(** ** The two [encode] methods side by side, for any model *)

Lemma prepare_steps (argsort : list Z -> list nat) (sentences : list pyval)
    (batch_size : Z) :
  (forall e,
      mapM WrappedHuggingfaceTransformer._text_length sentences = Raise e ->
      prepare argsort false sentences batch_size = Raise e) /\
  (forall keys e,
      mapM WrappedHuggingfaceTransformer._text_length sentences = Ok keys ->
      mapM (Py.getitem sentences) (argsort keys) = Raise e ->
      prepare argsort false sentences batch_size = Raise e) /\
  (forall keys sorted e,
      mapM WrappedHuggingfaceTransformer._text_length sentences = Ok keys ->
      mapM (Py.getitem sentences) (argsort keys) = Ok sorted ->
      Py.range 0 (Z.of_nat (List.length sentences)) batch_size = Raise e ->
      prepare argsort false sentences batch_size = Raise e) /\
  (forall keys sorted starts,
      mapM WrappedHuggingfaceTransformer._text_length sentences = Ok keys ->
      mapM (Py.getitem sentences) (argsort keys) = Ok sorted ->
      Py.range 0 (Z.of_nat (List.length sentences)) batch_size = Ok starts ->
      prepare argsort false sentences batch_size
      = Ok (argsort keys, sorted, starts)).
Proof.
  unfold prepare. repeat split.
  - intros e H. now rewrite H.
  - intros keys e H1 H2. rewrite H1. simpl. now rewrite H2.
  - intros keys sorted e H1 H2 H3. rewrite H1. simpl. rewrite H2. simpl.
    now rewrite H3.
  - intros keys sorted starts H1 H2 H3. rewrite H1. simpl. rewrite H2. simpl.
    now rewrite H3.
Qed.

Lemma staged_stops_early {Emb : Type} argsort
    (encode_text : list pyval -> bool -> result (list Emb))
    projection sentences batch_size convert_to_numpy convert_to_tensor log e :
  prepare argsort false sentences batch_size = Raise e ->
  staged argsort encode_text projection false sentences batch_size
    convert_to_numpy convert_to_tensor log = (Raise e, log).
Proof. intros H. unfold staged. now rewrite H. Qed.

Lemma staged_calls {Emb : Type} argsort
    (encode_text : list pyval -> bool -> result (list Emb))
    projection sentences batch_size convert_to_numpy convert_to_tensor
    idx sorted starts :
  prepare argsort false sentences batch_size = Ok (idx, sorted, starts) ->
  let batches := map (fun s => Py.slice sorted s (s + batch_size)) starts in
  let calls :=
    snd (staged argsort encode_text projection false sentences batch_size
           convert_to_numpy convert_to_tensor []) in
  (exists j, calls = map (fun b => (b, projection)) (firstn j batches)) /\
  ((forall batch, exists rows, encode_text batch projection = Ok rows) ->
   calls = map (fun b => (b, projection)) batches).
Proof.
  intros Hprep batches calls. subst batches calls.
  unfold staged. rewrite Hprep.
  split.
  - destruct (batch_loop_prefix encode_text projection sorted batch_size
                starts [] []) as (j & Hj).
    exists j. rewrite firstn_map, map_map.
    destruct (batch_loop encode_text projection sorted batch_size starts [] [])
      as [[all|e] log']; simpl in *; exact Hj.
  - intros Htotal.
    destruct (batch_loop_run encode_text projection sorted batch_size
                starts [] []) as (rowss & _ & Hrun);
      [intros; apply Htotal|].
    rewrite Hrun. simpl. now rewrite map_map.
Qed.

(** C7, as the code has it, with the progress bar off and for any
    model.  The two methods estimate lengths alike and go through the
    same steps before the loop: when one of these raises, both raise it
    and neither calls the model.  Otherwise both cut the same sorted
    sentences at the same places, and what each passes to [encode_text]
    is, in order, an initial part of that one list of batches: all of
    it when [encode_text] answers every batch, the Huggingface wrapper
    with [projection=False], the OpenCLIP wrapper with
    [projection=True].  With a model that ignores [projection] they
    make the same calls and return the same result. *)
Theorem encode_same_up_to_projection {Emb : Type}
    (argsort : list Z -> list nat)
    (encode_text : list pyval -> bool -> result (list Emb))
    (sentences : list pyval) (batch_size : Z)
    (show_progress_bar : option bool)
    (convert_to_numpy convert_to_tensor : bool) :
  truthy show_progress_bar = false ->
  let hf :=
    WrappedHuggingfaceTransformer.encode argsort encode_text sentences
      batch_size show_progress_bar convert_to_numpy convert_to_tensor [] in
  let clip :=
    WrappedOpenCLIPTransformer.encode argsort encode_text sentences
      batch_size show_progress_bar convert_to_numpy convert_to_tensor [] in
  (forall text,
      WrappedOpenCLIPTransformer._text_length text
      = WrappedHuggingfaceTransformer._text_length text) /\
  (forall e,
      mapM WrappedHuggingfaceTransformer._text_length sentences = Raise e ->
      hf = (Raise e, []) /\ clip = (Raise e, [])) /\
  (forall keys e,
      mapM WrappedHuggingfaceTransformer._text_length sentences = Ok keys ->
      mapM (Py.getitem sentences) (argsort keys) = Raise e ->
      hf = (Raise e, []) /\ clip = (Raise e, [])) /\
  (forall keys sorted e,
      mapM WrappedHuggingfaceTransformer._text_length sentences = Ok keys ->
      mapM (Py.getitem sentences) (argsort keys) = Ok sorted ->
      Py.range 0 (Z.of_nat (List.length sentences)) batch_size = Raise e ->
      hf = (Raise e, []) /\ clip = (Raise e, [])) /\
  (forall keys sorted starts,
      mapM WrappedHuggingfaceTransformer._text_length sentences = Ok keys ->
      mapM (Py.getitem sentences) (argsort keys) = Ok sorted ->
      Py.range 0 (Z.of_nat (List.length sentences)) batch_size = Ok starts ->
      let batches :=
        map (fun s => Py.slice sorted s (s + batch_size)) starts in
      (exists j_hf j_clip,
          snd hf = map (fun b => (b, false)) (firstn j_hf batches) /\
          snd clip = map (fun b => (b, true)) (firstn j_clip batches)) /\
      ((forall batch, exists rows, encode_text batch false = Ok rows) ->
       snd hf = map (fun b => (b, false)) batches) /\
      ((forall batch, exists rows, encode_text batch true = Ok rows) ->
       snd clip = map (fun b => (b, true)) batches)) /\
  ((forall batch, encode_text batch true = encode_text batch false) ->
   fst clip = fst hf /\
   map fst (snd clip) = map fst (snd hf) /\
   snd clip = retag true (snd hf)) /\
  snd hf = retag false (snd hf) /\
  snd clip = retag true (snd clip).
Proof.
  intros Hprog hf clip. subst hf clip.
  rewrite encode_stages_hf, encode_stages_clip, Hprog.
  destruct (prepare_steps argsort sentences batch_size)
    as (Hlen & Hget & Hrange & Hok).
  split; [exact text_length_same|].
  split.
  { intros e H. split; apply staged_stops_early; now apply Hlen. }
  split.
  { intros keys e H1 H2. split; apply staged_stops_early;
      now apply (Hget keys). }
  split.
  { intros keys sorted e H1 H2 H3. split; apply staged_stops_early;
      now apply (Hrange keys sorted). }
  split.
  { intros keys sorted starts H1 H2 H3 batches.
    pose proof (Hok keys sorted starts H1 H2 H3) as Hprep.
    destruct (staged_calls argsort encode_text false sentences batch_size
                convert_to_numpy convert_to_tensor _ _ _ Hprep)
      as ((j1 & Hj1) & Hall1).
    destruct (staged_calls argsort encode_text true sentences batch_size
                convert_to_numpy convert_to_tensor _ _ _ Hprep)
      as ((j2 & Hj2) & Hall2).
    split; [exists j1, j2; split; assumption|].
    split; assumption. }
  split.
  { intros Hsame.
    rewrite (staged_retag argsort encode_text sentences batch_size
               convert_to_numpy convert_to_tensor Hsame).
    simpl. split; [reflexivity|]. split; [|reflexivity].
    unfold retag. rewrite map_map. reflexivity. }
  split; symmetry; apply retag_same; apply staged_log_flags.
Qed.

(** Three sentences in batches of two, with a model whose rows depend
    on [projection]. *)
Lemma encode_same_up_to_projection_witness :
  let sentences := [PStr "hello world"; PStr "hi"; PStr "yo"] in
  let hf :=
    WrappedHuggingfaceTransformer.encode Np.stable_argsort toy_encode_text
      sentences 2 None true true [] in
  let clip :=
    WrappedOpenCLIPTransformer.encode Np.stable_argsort toy_encode_text
      sentences 2 None true true [] in
  (forall text,
      WrappedOpenCLIPTransformer._text_length text
      = WrappedHuggingfaceTransformer._text_length text) /\
  (forall e,
      mapM WrappedHuggingfaceTransformer._text_length sentences = Raise e ->
      hf = (Raise e, []) /\ clip = (Raise e, [])) /\
  (forall keys e,
      mapM WrappedHuggingfaceTransformer._text_length sentences = Ok keys ->
      mapM (Py.getitem sentences) (Np.stable_argsort keys) = Raise e ->
      hf = (Raise e, []) /\ clip = (Raise e, [])) /\
  (forall keys sorted e,
      mapM WrappedHuggingfaceTransformer._text_length sentences = Ok keys ->
      mapM (Py.getitem sentences) (Np.stable_argsort keys) = Ok sorted ->
      Py.range 0 (Z.of_nat (List.length sentences)) 2 = Raise e ->
      hf = (Raise e, []) /\ clip = (Raise e, [])) /\
  (forall keys sorted starts,
      mapM WrappedHuggingfaceTransformer._text_length sentences = Ok keys ->
      mapM (Py.getitem sentences) (Np.stable_argsort keys) = Ok sorted ->
      Py.range 0 (Z.of_nat (List.length sentences)) 2 = Ok starts ->
      let batches := map (fun s => Py.slice sorted s (s + 2)) starts in
      (exists j_hf j_clip,
          snd hf = map (fun b => (b, false)) (firstn j_hf batches) /\
          snd clip = map (fun b => (b, true)) (firstn j_clip batches)) /\
      ((forall batch, exists rows, toy_encode_text batch false = Ok rows) ->
       snd hf = map (fun b => (b, false)) batches) /\
      ((forall batch, exists rows, toy_encode_text batch true = Ok rows) ->
       snd clip = map (fun b => (b, true)) batches)) /\
  ((forall batch, toy_encode_text batch true = toy_encode_text batch false) ->
   fst clip = fst hf /\
   map fst (snd clip) = map fst (snd hf) /\
   snd clip = retag true (snd hf)) /\
  snd hf = retag false (snd hf) /\
  snd clip = retag true (snd clip).
Proof.
  intros sentences.
  apply (encode_same_up_to_projection Np.stable_argsort toy_encode_text
           sentences 2 None true true).
  reflexivity.
Defined.

(** A model that fails under [projection=True] only, on batches of more
    than one text: the Huggingface wrapper encodes both batches, the
    OpenCLIP wrapper stops at the first. *)
Example encode_calls_differ_when_projection_fails :
  let encode_text := fun texts (projection : bool) =>
    match projection, texts with
    | true, _ :: _ :: _ => Raise ModelError
    | _, _ => toy_encode_text texts projection
    end in
  WrappedHuggingfaceTransformer.encode Np.stable_argsort encode_text
    [PStr "hello world"; PStr "hi"; PStr "yo"] 2 None true true []
  = (Ok (Tensor [11; 2; 2]),
     [([PStr "hi"; PStr "yo"], false); ([PStr "hello world"], false)]) /\
  WrappedOpenCLIPTransformer.encode Np.stable_argsort encode_text
    [PStr "hello world"; PStr "hi"; PStr "yo"] 2 None true true []
  = (Raise ModelError, [([PStr "hi"; PStr "yo"], true)]).
Proof. split; reflexivity. Qed.
